(** * Voice editor: the command transform and the undo/redo session

    A shallow embedding of [app.py]: the voice command transform
    [process_command], the tone thresholding of [analyze_sentiment], the
    fail-soft wrapper [translate_text], and the Streamlit session
    ([text], [history], [current_index]) with its button handlers and
    [save_to_history].

    Python values are modelled as follows.
    - [str]: [string]; a character is read as the code point with the same
      number, so the model covers text over U+0000..U+00FF, on which
      [str.lower] and [str.strip] are given in full.
    - [int]: [Z].
    - [list]: [list], with Python's indexing and slicing (negative
      positions count from the end, an index out of range raises).
    - [float]: the binary64 numbers of [PrimFloat].
    - [st.session_state]: a record threaded through a state monad in which
      a raised exception keeps the writes made before it. *)

From Stdlib Require Import ZArith Lia List Bool Ascii String PrimFloat.
Import ListNotations.

Set Warnings "-inexact-float".
Local Open Scope string_scope.

(** ** Python strings *)

Module PyStr.

Definition code (c : ascii) : nat := nat_of_ascii c.

(** [ch.isspace()] on the code points below 256. *)
Definition isspace (c : ascii) : bool :=
  let n := code c in
  (((9 <=? n) && (n <=? 13)) || ((28 <=? n) && (n <=? 32))
   || (n =? 133) || (n =? 160))%nat.

(** [ch.lower()]: A-Z, and the capital letters U+00C0..U+00DE except the
    multiplication sign U+00D7, move up by 32. *)
Definition lower_char (c : ascii) : ascii :=
  let n := code c in
  if (((65 <=? n) && (n <=? 90))
      || ((192 <=? n) && (n <=? 222) && negb (n =? 215)))%nat
  then ascii_of_nat (n + 32) else c.

(** [s.lower()] *)
Fixpoint lower (s : string) : string :=
  match s with
  | EmptyString => EmptyString
  | String c s' => String (lower_char c) (lower s')
  end.

(** [s.lstrip()] *)
Fixpoint lstrip (s : string) : string :=
  match s with
  | EmptyString => EmptyString
  | String c s' => if isspace c then lstrip s' else s
  end.

(** [s.rstrip()] *)
Fixpoint rstrip (s : string) : string :=
  match s with
  | EmptyString => EmptyString
  | String c s' =>
      match rstrip s' with
      | EmptyString => if isspace c then EmptyString else String c EmptyString
      | r => String c r
      end
  end.

(** [s.strip()] *)
Definition strip (s : string) : string := rstrip (lstrip s).

(** [sub in s] *)
Fixpoint contains (sub s : string) : bool :=
  match s with
  | EmptyString => prefix sub EmptyString
  | String _ s' => prefix sub s || contains sub s'
  end.

(** [s.replace(old, new)] for a non-empty [old]: the occurrences of [old]
    are found from the left and do not overlap.  [skip] counts the
    characters of a matched occurrence still to be dropped. *)
Fixpoint replace_from (old new : string) (skip : nat) (s : string) : string :=
  match s with
  | EmptyString => EmptyString
  | String c s' =>
      match skip with
      | S k => replace_from old new k s'
      | O =>
          if prefix old s
          then new ++ replace_from old new (String.length old - 1) s'
          else String c (replace_from old new 0 s')
      end
  end.

(** With an empty [old], Python puts [new] before every character and at
    the end. *)
Fixpoint intersperse (new s : string) : string :=
  match s with
  | EmptyString => new
  | String c s' => new ++ String c (intersperse new s')
  end.

Definition replace (old new s : string) : string :=
  match old with
  | EmptyString => intersperse new s
  | _ => replace_from old new 0 s
  end.

(** No character of [s] is white space. *)
Fixpoint no_space (s : string) : bool :=
  match s with
  | EmptyString => true
  | String c s' => negb (isspace c) && no_space s'
  end.

End PyStr.

(** ** The voice command transform *)

(** [command.lower().strip()], line 40. *)
Definition normalise (command : string) : string :=
  PyStr.strip (PyStr.lower command).

(** [process_command(command)], lines 39-54. *)
Definition process_command (command : string) : string :=
  let command := normalise command in
  if PyStr.contains "add" command then
    PyStr.strip (PyStr.replace "add" EmptyString command)
  else if PyStr.contains "delete" command then
    EmptyString
  else if PyStr.contains "html" command then
    "<p>" ++ PyStr.strip (PyStr.replace "html" EmptyString command) ++ "</p>"
  else if PyStr.contains "php" command then
    "<?php echo '" ++ PyStr.strip (PyStr.replace "php" EmptyString command) ++ "'; ?>"
  else if PyStr.contains "bold" command then
    "**" ++ PyStr.strip (PyStr.replace "bold" EmptyString command) ++ "**"
  else if PyStr.contains "italic" command then
    "*" ++ PyStr.strip (PyStr.replace "italic" EmptyString command) ++ "*"
  else
    command.

(** The table of section 4.2 of the specification: the keywords in their
    priority order, and what each branch of [process_command] returns for
    the normalised command. *)
Inductive keyword := Add | Delete | Html | Php | Bold | Italic.

Definition word (k : keyword) : string :=
  match k with
  | Add => "add" | Delete => "delete" | Html => "html"
  | Php => "php" | Bold => "bold" | Italic => "italic"
  end.

Definition priority : list keyword := [Add; Delete; Html; Php; Bold; Italic].

(** The place of a keyword in the priority order. *)
Definition rank (k : keyword) : nat :=
  match k with
  | Add => 0 | Delete => 1 | Html => 2 | Php => 3 | Bold => 4 | Italic => 5
  end.

Definition remainder (k : keyword) (command : string) : string :=
  PyStr.strip (PyStr.replace (word k) EmptyString command).

Definition branch (k : keyword) (command : string) : string :=
  match k with
  | Add => remainder Add command
  | Delete => EmptyString
  | Html => "<p>" ++ remainder Html command ++ "</p>"
  | Php => "<?php echo '" ++ remainder Php command ++ "'; ?>"
  | Bold => "**" ++ remainder Bold command ++ "**"
  | Italic => "*" ++ remainder Italic command ++ "*"
  end.

(** The utterance contains the keyword, whatever the case of its letters. *)
Definition mentions (k : keyword) (utterance : string) : bool :=
  PyStr.contains (word k) (PyStr.lower utterance).

(** The first keyword of the priority order that the utterance contains. *)
Definition first_match (utterance : string) : option keyword :=
  find (fun k => mentions k utterance) priority.

(** What the specification's words say of the "add" branch: the
    occurrences of the word are cut out of the utterance, whatever their
    case, and what is left of the utterance is trimmed. *)
Fixpoint cut_word (w : string) (skip : nat) (s : string) : string :=
  match s with
  | EmptyString => EmptyString
  | String c s' =>
      match skip with
      | S k => cut_word w k s'
      | O =>
          if prefix w (PyStr.lower s)
          then cut_word w (String.length w - 1) s'
          else String c (cut_word w 0 s')
      end
  end.

Definition strip_word_spec (k : keyword) (utterance : string) : string :=
  PyStr.strip (cut_word (word k) 0 utterance).

(** ** Python lists, exceptions and the script monad *)

Inductive exception :=
| BaseException (msg : string)  (* raised, and not an instance of Exception *)
| Exception (msg : string)
| IndexError (msg : string).

(** [isinstance(e, Exception)] *)
Definition is_Exception (e : exception) : bool :=
  match e with
  | BaseException _ => false
  | Exception _ | IndexError _ => true
  end.

(** [str(e)] *)
Definition exception_str (e : exception) : string :=
  match e with
  | BaseException m | Exception m | IndexError m => m
  end.

Inductive result (A : Type) :=
| Done (a : A)
| Raised (e : exception).
Arguments Done {A} a.
Arguments Raised {A} e.

Module PyList.
Local Open Scope Z_scope.

Definition len {A} (l : list A) : Z := Z.of_nat (List.length l).

(** [l[i]] *)
Definition getitem {A} (l : list A) (i : Z) : result A :=
  let j := if i <? 0 then i + len l else i in
  if (0 <=? j) && (j <? len l) then
    match nth_error l (Z.to_nat j) with
    | Some x => Done x
    | None => Raised (IndexError "list index out of range")
    end
  else Raised (IndexError "list index out of range").

(** [l[:stop]] *)
Definition slice_to {A} (l : list A) (stop : Z) : list A :=
  let j := if stop <? 0 then Z.max 0 (stop + len l) else Z.min stop (len l) in
  firstn (Z.to_nat j) l.

End PyList.

(** [st.session_state] *)
Record session_state := SessionState {
  text : string;
  history : list string;
  current_index : Z
}.

(** A piece of the script: it reads and writes the session state and either
    finishes or raises; the writes made before a raise stay. *)
Definition script (A : Type) : Type := session_state -> result A * session_state.

Definition ret {A} (a : A) : script A := fun s => (Done a, s).

Definition bind {A B} (m : script A) (k : A -> script B) : script B :=
  fun s =>
    match m s with
    | (Done a, s') => k a s'
    | (Raised e, s') => (Raised e, s')
    end.

Declare Scope script_scope.
Delimit Scope script_scope with script.
Notation "x <- m ;; k" := (bind m (fun x => k))
  (at level 61, m at next level, right associativity) : script_scope.
Notation "m ;; k" := (bind m (fun _ => k))
  (at level 61, right associativity) : script_scope.
Local Open Scope script_scope.

Definition read {A} (field : session_state -> A) : script A :=
  fun s => (Done (field s), s).

Definition set_text (t : string) : script unit :=
  fun s => (Done tt, SessionState t (history s) (current_index s)).

Definition set_history (h : list string) : script unit :=
  fun s => (Done tt, SessionState (text s) h (current_index s)).

Definition set_current_index (i : Z) : script unit :=
  fun s => (Done tt, SessionState (text s) (history s) i).

Definition lift {A} (r : result A) : script A := fun s => (r, s).

(** [if cond: body] *)
Definition when (cond : bool) (body : script unit) : script unit :=
  if cond then body else ret tt.

(** The state a piece of script leaves, and how it ended. *)
Definition state_after {A} (m : script A) (s : session_state) : session_state :=
  snd (m s).

Definition outcome {A} (m : script A) (s : session_state) : result A :=
  fst (m s).

(** ** The session *)

Local Open Scope Z_scope.

(** Lines 104-109: the state of a new session. *)
Definition initial_state : session_state :=
  SessionState EmptyString [] (-1).

(** [save_to_history()], lines 111-114. *)
Definition save_to_history : script unit :=
  h <- read history ;;
  i <- read current_index ;;
  set_history (PyList.slice_to h (i + 1)) ;;
  h <- read history ;;
  t <- read text ;;
  set_history (h ++ [t]) ;;
  i <- read current_index ;;
  set_current_index (i + 1).

(** What the speech recogniser answers. *)
Inductive recognition :=
| Recognized (said : string)
| UnknownValueError
| RequestError.

(** [recognize_speech_from_mic(language_code)], lines 21-36, as a function
    of the recogniser's answer: both failures give the empty string. *)
Definition recognize_speech_from_mic (heard : recognition) : string :=
  match heard with
  | Recognized said => said
  | UnknownValueError => EmptyString
  | RequestError => EmptyString
  end.

(** [if s:] for a string. *)
Definition truthy (s : string) : bool := negb (s =? EmptyString)%string.

(** "Start Dictation", lines 120-126. *)
Definition start_dictation (heard : recognition) : script unit :=
  let result := recognize_speech_from_mic heard in
  when (truthy result)
    (let processed := process_command result in
     t <- read text ;;
     set_text (t ++ processed) ;;
     save_to_history).

(** "Clear Text", lines 128-132. *)
Definition clear_text : script unit :=
  set_text EmptyString ;;
  set_history [] ;;
  set_current_index (-1).

(** "Undo", lines 137-140. *)
Definition undo : script unit :=
  i <- read current_index ;;
  when (0 <? i)
    (set_current_index (i - 1) ;;
     h <- read history ;;
     i <- read current_index ;;
     t <- lift (PyList.getitem h i) ;;
     set_text t).

(** "Redo", lines 142-145. *)
Definition redo : script unit :=
  i <- read current_index ;;
  h <- read history ;;
  when (i <? PyList.len h - 1)
    (set_current_index (i + 1) ;;
     h <- read history ;;
     i <- read current_index ;;
     t <- lift (PyList.getitem h i) ;;
     set_text t).

(** "Load from File", lines 152-157; [file] holds the contents of
    [text_editor_output.txt] when that file exists. *)
Definition load_from_file (file : option string) : script unit :=
  match file with
  | Some contents => set_text contents
  | None => ret tt
  end.

(** Lines 178-182: the text area gives back [text_area]; a value that
    differs from the buffer is taken over and committed. *)
Definition text_area_changed (text_area : string) : script unit :=
  t <- read text ;;
  when (negb (t =? text_area)%string)
    (set_text text_area ;;
     save_to_history).

Inductive button :=
| StartDictation | ClearText | Undo | Redo | SaveToFile | LoadFromFile
| AnalyzeSentiment | ShowPOSTags | ShowPreview | Translate.

Definition button_eqb (a b : button) : bool :=
  match a, b with
  | StartDictation, StartDictation | ClearText, ClearText | Undo, Undo
  | Redo, Redo | SaveToFile, SaveToFile | LoadFromFile, LoadFromFile
  | AnalyzeSentiment, AnalyzeSentiment | ShowPOSTags, ShowPOSTags
  | ShowPreview, ShowPreview | Translate, Translate => true
  | _, _ => false
  end.

(** What one run of the script receives from outside: the button that was
    pressed, if any, the recogniser's answer, the file on disk, and the
    value the text area widget gives back. *)
Record rerun := Rerun {
  clicked : option button;
  heard : recognition;
  file : option string;
  text_area : string
}.

(** [st.button(b)] *)
Definition st_button (r : rerun) (b : button) : bool :=
  match clicked r with
  | Some c => button_eqb c b
  | None => false
  end.

(** The sidebar, lines 117-174.  Saving to the file and the NLP tools only
    read the session state. *)
Definition sidebar (r : rerun) : script unit :=
  when (st_button r StartDictation) (start_dictation (heard r)) ;;
  when (st_button r ClearText) clear_text ;;
  when (st_button r Undo) undo ;;
  when (st_button r Redo) redo ;;
  when (st_button r LoadFromFile) (load_from_file (file r)).

(** One run of the script, top to bottom: the sidebar, then the text area.
    The preview and the translation below it only read the session state. *)
Definition script_run (r : rerun) : script unit :=
  sidebar r ;;
  text_area_changed (text_area r).

(** The states a session can be in between two runs. *)
Inductive reachable : session_state -> Prop :=
| reachable_initial : reachable initial_state
| reachable_rerun s r :
    reachable s -> reachable (state_after (script_run r) s).

(** The history invariant of section 3 of the specification. *)
Definition history_invariant (s : session_state) : Prop :=
  (history s <> [] -> 0 <= current_index s < PyList.len (history s))
  /\ (history s = [] -> current_index s = -1).

(** The buffer is the snapshot the pointer is on. *)
Definition in_sync (s : session_state) : Prop :=
  PyList.getitem (history s) (current_index s) = Done (text s).

(** A run commits a snapshot when it calls [save_to_history]: at line 126,
    when something was recognised, or at line 182, when the text area
    differs from the buffer the buttons left. *)
Definition commits (r : rerun) (s : session_state) : bool :=
  (st_button r StartDictation && truthy (recognize_speech_from_mic (heard r)))
  || negb (text (state_after (sidebar r) s) =? text_area r)%string.

(** [applyEdit(newText)] in the words of section 4.1 of the specification. *)
Definition applyEdit_spec (newText : string) (s : session_state) : session_state :=
  if (newText =? text s)%string then s
  else SessionState newText
         (firstn (Z.to_nat (current_index s + 1)) (history s) ++ [newText])
         (current_index s + 1).

(** [n] presses of "Undo". *)
Fixpoint undo_times (n : nat) : script unit :=
  match n with
  | O => ret tt
  | S n' => undo ;; undo_times n'
  end.

(** ** Sentiment and translation *)

Inductive tone := Positive | Negative | Neutral.

(** The three labels are the words before the emoji of the strings at lines
    70, 72 and 74. *)
Definition tone_label (t : tone) : string :=
  match t with
  | Positive => "Positive"
  | Negative => "Negative"
  | Neutral => "Neutral"
  end.

(** Lines 69-74. *)
Definition tone_of (polarity : float) : tone :=
  if (0.1 <? polarity)%float then Positive
  else if (polarity <? -0.1)%float then Negative
  else Neutral.

(** What Streamlit shows. *)
Inductive notice :=
| st_error (msg : string)
| st_success (msg : string)
| st_warning (msg : string).

Module Translated.
(** The object [translator.translate] returns. *)
Record t := Make { text : string }.
End Translated.

Section Collaborators.

(** [TextBlob(text).sentiment]: polarity and subjectivity. *)
Variable blob_sentiment : string -> float * float.

(** [translator.translate(text, dest=dest_lang_code)]. *)
Variable translator_translate : string -> string -> result Translated.t.

(** [analyze_sentiment(text)], lines 64-76. *)
Definition analyze_sentiment (text : string) : float * float * tone :=
  let polarity := fst (blob_sentiment text) in
  let subjectivity := snd (blob_sentiment text) in
  (polarity, subjectivity, tone_of polarity).

(** [translate_text(text, dest_lang_code)], lines 79-85, with the notices
    it shows. *)
Definition translate_text (text dest_lang_code : string)
  : result string * list notice :=
  match translator_translate text dest_lang_code with
  | Done translated => (Done (Translated.text translated), [])
  | Raised e =>
      if is_Exception e
      then (Done text, [st_error ("Translation failed: " ++ exception_str e)])
      else (Raised e, [])
  end.

End Collaborators.

(** ** Auxiliary notions for the properties *)

(** A piece of script keeps the history invariant when, from a state that
    has it, it finishes without raising in a state that has it. *)
Definition keeps_invariant (m : script unit) : Prop :=
  forall s,
    history_invariant s ->
    outcome m s = Done tt /\ history_invariant (state_after m s).

(** Two edits, then a load: the runs of a session that typed "a", typed
    "b", and pressed "Load from File" on a file that holds "zzz". *)
Definition typed (t : string) : rerun := Rerun None UnknownValueError None t.

Definition loaded (contents : string) : rerun :=
  Rerun (Some LoadFromFile) UnknownValueError (Some contents) contents.

Definition after_load : session_state :=
  state_after (script_run (loaded "zzz"))
    (state_after (script_run (typed "b"))
       (state_after (script_run (typed "a")) initial_state)).

(** [n] presses of "Redo". *)
Fixpoint redo_times (n : nat) : script unit :=
  match n with
  | O => ret tt
  | S n' => redo ;; redo_times n'
  end.

(** The run reads a file into the buffer: "Load from File" is pressed and
    the file exists (lines 152-154). *)
Definition loads (r : rerun) : bool :=
  st_button r LoadFromFile
  && match file r with Some _ => true | None => false end.

(** The states of the sessions in which no run loads a file. *)
Inductive reachable_without_load : session_state -> Prop :=
| without_load_initial : reachable_without_load initial_state
| without_load_rerun s r :
    reachable_without_load s -> loads r = false ->
    reachable_without_load (state_after (script_run r) s).

(** ** Files *)

(** Files are modelled by the characters they hold: the locale's encoding
    is taken to represent every character of the text, as UTF-8 does, and
    paths name regular files that can be written and read. *)
Definition file_system : Type := string -> option string.

Definition LF : ascii := "010"%char.
Definition CR : ascii := "013"%char.
Definition newline : string := String LF EmptyString.
Definition carriage_return : string := String CR EmptyString.

(** Writing in text mode ([open(filename, 'w')]): every "\n" becomes
    [os.linesep]. *)
Definition write_newlines (linesep text : string) : string :=
  PyStr.replace newline linesep text.

(** Reading in text mode ([open(filename, 'r')], universal newlines):
    "\r\n" and "\r" become "\n". *)
Fixpoint universal_newlines (data : string) : string :=
  match data with
  | EmptyString => EmptyString
  | String c rest =>
      if (c =? CR)%char then
        String LF
          match rest with
          | EmptyString => EmptyString
          | String c' rest' =>
              if (c' =? LF)%char then universal_newlines rest'
              else universal_newlines rest
          end
      else String c (universal_newlines rest)
  end.

Definition fs_write (fs : file_system) (path data : string) : file_system :=
  fun p => if (p =? path)%string then Some data else fs p.

(** [os.path.exists(path)] *)
Definition path_exists (fs : file_system) (path : string) : bool :=
  match fs path with Some _ => true | None => false end.

(** [save_text_to_file(text, filename)], lines 88-90, on a system whose
    [os.linesep] is [linesep]. *)
Definition save_text_to_file (linesep text filename : string)
    (fs : file_system) : file_system :=
  fs_write fs filename (write_newlines linesep text).

(** [load_text_from_file(filename)], lines 92-94; a missing file raises
    [FileNotFoundError]. *)
Definition load_text_from_file (filename : string) (fs : file_system)
  : result string :=
  match fs filename with
  | Some data => Done (universal_newlines data)
  | None =>
      Raised (Exception ("[Errno 2] No such file or directory: '"
                         ++ filename ++ "'"))
  end.

(** Line 148. *)
Definition filename : string := "text_editor_output.txt".

(** The session and the files it saves to and loads from. *)
Record world := World {
  session : session_state;
  disk : file_system
}.

(** What the user did to start a run: the button pressed, if any, what the
    recogniser answers, and the value of the text area. *)
Record event := Event {
  pressed : option button;
  said : recognition;
  area : string
}.

(** What "Load from File" finds, lines 153-154: the text of the file when
    the file exists. *)
Definition file_on (fs : file_system) : option string :=
  if path_exists fs filename then
    match load_text_from_file filename fs with
    | Done contents => Some contents
    | Raised _ => None
    end
  else None.

(** One run of the script on the session and the disk.  A run has at most
    one pressed button, so "Save to File" (lines 149-151) writes the buffer
    the run started with, and "Load from File" reads the disk the run
    started with. *)
Definition app_run (linesep : string) (e : event) (w : world) : world :=
  let r := Rerun (pressed e) (said e) (file_on (disk w)) (area e) in
  World (state_after (script_run r) (session w))
        (if st_button r SaveToFile
         then save_text_to_file linesep (text (session w)) filename (disk w)
         else disk w).


(** The two line separators: of POSIX systems and of Windows. *)
Definition is_linesep (linesep : string) : Prop :=
  linesep = newline \/ linesep = (carriage_return ++ newline).

(** ** The tools beside and below the editor *)

(** What a handler puts on the page: a notice, a text area with its value,
    a markdown body.  Labels and sizes of the widgets are left out. *)
Inductive element :=
| st_notice (n : notice)
| st_text_area (value : string)
| st_markdown (body : string).

(** Every character of [s] is white space. *)
Fixpoint all_space (s : string) : bool :=
  match s with
  | EmptyString => true
  | String c s' => PyStr.isspace c && all_space s'
  end.

(** "Show Preview", lines 187-192. *)
Definition show_preview (text : string) : list element :=
  if truthy (PyStr.strip text)
  then [st_markdown "### Preview:"; st_markdown text]
  else [st_notice (st_warning "Nothing to preview.")].

Module Token.
(** A token of a spaCy document. *)
Record t := Make { text : string; pos_ : string }.
End Token.

Section Tools.

(** [translator.translate(text, dest=dest_lang_code)]. *)
Variable translator_translate : string -> string -> result Translated.t.

(** The spaCy model, [None] when it could not be loaded (lines 9-14); a
    loaded model turns a text into its tokens. *)
Variable nlp : option (string -> list Token.t).

(** "Translate", lines 198-203. *)
Definition translate_button (text target_language : string)
  : result (list element) :=
  if truthy (PyStr.strip text) then
    match translate_text translator_translate text target_language with
    | (Done translated_text, notices) =>
        Done (map st_notice notices ++ [st_text_area translated_text])%list
    | (Raised e, _) => Raised e
    end
  else Done [st_notice (st_warning "Text is empty.")].

(** [pos_tagging(text)], lines 57-61. *)
Definition pos_tagging (text : string) : list string :=
  match nlp with
  | None => ["spaCy model not loaded."]
  | Some model =>
      map (fun token => Token.text token ++ " -> " ++ Token.pos_ token)
        (model text)
  end.

End Tools.

(** * Properties *)

(** ** Substring tests and trimming *)

Section Trimming.

Variable sub : string.
Hypothesis sub_no_space : PyStr.no_space sub = true.
Hypothesis sub_not_empty : sub <> EmptyString.

Lemma prefix_space_head c s :
  PyStr.isspace c = true -> prefix sub (String c s) = false.
Proof using sub_no_space sub_not_empty.
  intros Hc. destruct sub as [|a k]; [contradiction|].
  simpl in sub_no_space. apply andb_prop in sub_no_space as [Ha _].
  simpl. destruct (ascii_dec a c) as [->|]; [|reflexivity].
  rewrite Hc in Ha. discriminate.
Qed.

Lemma contains_lstrip s :
  PyStr.contains sub (PyStr.lstrip s) = PyStr.contains sub s.
Proof using sub_no_space sub_not_empty.
  induction s as [|c s IH]; [reflexivity|].
  cbn [PyStr.contains PyStr.lstrip]. destruct (PyStr.isspace c) eqn:Hc.
  - rewrite (prefix_space_head c s Hc). exact IH.
  - reflexivity.
Qed.

End Trimming.

Lemma prefix_rstrip k s :
  PyStr.no_space k = true -> prefix k (PyStr.rstrip s) = prefix k s.
Proof.
  revert k. induction s as [|c s IH]; intros k Hk; [reflexivity|].
  destruct k as [|a k]; [simpl; now destruct (PyStr.rstrip s), (PyStr.isspace c)|].
  simpl in Hk. apply andb_prop in Hk as [Ha Hk].
  specialize (IH k Hk). simpl.
  destruct (PyStr.rstrip s) as [|b r] eqn:Hr.
  - destruct (PyStr.isspace c) eqn:Hc.
    + destruct (ascii_dec a c) as [->|]; [|reflexivity].
      rewrite Hc in Ha. discriminate.
    + simpl. destruct (ascii_dec a c); [exact IH | reflexivity].
  - simpl. destruct (ascii_dec a c); [exact IH | reflexivity].
Qed.

Lemma contains_rstrip k s :
  PyStr.no_space k = true ->
  PyStr.contains k (PyStr.rstrip s) = PyStr.contains k s.
Proof.
  intros Hk. induction s as [|c s IH]; [reflexivity|].
  pose proof (prefix_rstrip k (String c s) Hk) as Hp.
  change (PyStr.contains k (String c s))
    with (prefix k (String c s) || PyStr.contains k s).
  rewrite <- IH, <- Hp. cbn [PyStr.rstrip].
  destruct (PyStr.rstrip s) as [|b r]; [|reflexivity].
  destruct (PyStr.isspace c); cbn [PyStr.contains]; [|reflexivity].
  now rewrite orb_diag.
Qed.

Lemma contains_strip k s :
  PyStr.no_space k = true -> k <> EmptyString ->
  PyStr.contains k (PyStr.strip s) = PyStr.contains k s.
Proof.
  intros Hk Hne. unfold PyStr.strip.
  rewrite (contains_rstrip k _ Hk). now apply contains_lstrip.
Qed.

(** The test of each branch of [process_command], made on the normalised
    command, is the test on the lowercased utterance. *)
Lemma contains_normalise k utterance :
  PyStr.contains (word k) (normalise utterance) = mentions k utterance.
Proof.
  unfold normalise, mentions. apply contains_strip; destruct k; easy.
Qed.

(** ** The voice command transform *)

Lemma process_command_branches utterance :
  process_command utterance =
    let command := normalise utterance in
    if mentions Add utterance then branch Add command
    else if mentions Delete utterance then branch Delete command
    else if mentions Html utterance then branch Html command
    else if mentions Php utterance then branch Php command
    else if mentions Bold utterance then branch Bold command
    else if mentions Italic utterance then branch Italic command
    else command.
Proof.
  unfold process_command. cbv zeta.
  rewrite <- !contains_normalise. reflexivity.
Qed.

Lemma process_command_first_match utterance :
  process_command utterance =
    match first_match utterance with
    | Some k => branch k (normalise utterance)
    | None => normalise utterance
    end.
Proof.
  rewrite process_command_branches. unfold first_match, priority. cbn [find].
  cbv zeta.
  repeat match goal with
         | |- context [if mentions ?k utterance then _ else _] =>
             destruct (mentions k utterance)
         end; reflexivity.
Qed.

Lemma first_match_spec utterance k :
  first_match utterance = Some k <->
  mentions k utterance = true /\
  forall k', (rank k' < rank k)%nat -> mentions k' utterance = false.
Proof.
  unfold first_match, priority. cbn [find]. split.
  - intros Hfind.
    repeat match type of Hfind with
           | context [if mentions ?a utterance then _ else _] =>
               destruct (mentions a utterance) eqn:?
           end; try discriminate Hfind.
    all: injection Hfind as <-; split; [assumption|].
    all: intros [] Hlt; simpl in Hlt; try lia; assumption.
  - intros [Hk Hbefore].
    destruct k; simpl in Hbefore;
      repeat match goal with
             | |- context [if mentions ?a utterance then _ else _] =>
                 first [ rewrite Hk
                       | rewrite (Hbefore a) by (simpl; lia) ]
             end; reflexivity.
Qed.

(** C4: an utterance takes the branch of the first keyword of the priority
    order add, delete, html, php, bold, italic that it contains, whatever
    later keywords it contains as well; "add bold hello" takes the "add"
    branch and gives "bold hello", although it contains "bold". *)
Theorem process_command_priority :
  (forall utterance,
      process_command utterance =
        match first_match utterance with
        | Some k => branch k (normalise utterance)
        | None => normalise utterance
        end)
  /\ (forall utterance k,
         first_match utterance = Some k <->
         mentions k utterance = true /\
         forall k', (rank k' < rank k)%nat -> mentions k' utterance = false)
  /\ mentions Add "add bold hello" = true
  /\ mentions Bold "add bold hello" = true
  /\ process_command "add bold hello" = "bold hello".
Proof.
  split; [exact process_command_first_match|].
  split; [exact first_match_spec|].
  repeat split.
Qed.

(** C5, as the code has it: an utterance that contains none of the six
    keywords comes back lowercased and trimmed. *)
Theorem process_command_no_keyword utterance :
  (forall k, mentions k utterance = false) ->
  process_command utterance = PyStr.strip (PyStr.lower utterance).
Proof.
  intros Hnone. rewrite process_command_first_match.
  destruct (first_match utterance) as [k|] eqn:Hfind; [|reflexivity].
  apply first_match_spec in Hfind as [Hk _].
  rewrite Hnone in Hk. discriminate.
Qed.

Lemma process_command_no_keyword_witness :
  (forall k, mentions k "Hello World " = false)
  /\ process_command "Hello World " = "hello world".
Proof.
  split.
  - intros []; reflexivity.
  - apply (process_command_no_keyword "Hello World "). intros []; reflexivity.
Defined.

(** C5 fails as stated: "Hello" contains no keyword and is not returned
    unchanged. *)
Lemma process_command_changes_plain_utterance :
  (forall k, mentions k "Hello" = false)
  /\ process_command "Hello" = "hello"
  /\ process_command "Hello" <> "Hello".
Proof.
  split; [intros []; reflexivity|]. split; [reflexivity | discriminate].
Qed.

(** C6, as the code has it: for an utterance that contains "add", the
    result is the lowercased and trimmed utterance with every occurrence of
    "add" taken out, trimmed once more. *)
Theorem process_command_add utterance :
  mentions Add utterance = true ->
  process_command utterance =
    PyStr.strip
      (PyStr.replace "add" EmptyString (PyStr.strip (PyStr.lower utterance))).
Proof.
  intros Hadd. rewrite process_command_branches. cbv zeta.
  rewrite Hadd. reflexivity.
Qed.

Lemma process_command_add_witness :
  mentions Add "Add Hello" = true
  /\ process_command "Add Hello" = "hello".
Proof.
  split; [reflexivity|].
  apply (process_command_add "Add Hello"). reflexivity.
Defined.

(** C6 fails as stated: cutting "add" out of "Add Hello" and trimming
    leaves "Hello", and the code returns "hello". *)
Lemma process_command_add_lowercases :
  mentions Add "Add Hello" = true
  /\ strip_word_spec Add "Add Hello" = "Hello"
  /\ process_command "Add Hello" = "hello"
  /\ process_command "Add Hello" <> strip_word_spec Add "Add Hello".
Proof.
  repeat split. discriminate.
Qed.

(** ** Python lists *)

Lemma len_app {A} (l1 l2 : list A) :
  PyList.len (l1 ++ l2) = PyList.len l1 + PyList.len l2.
Proof. unfold PyList.len. rewrite List.length_app. lia. Qed.

Lemma len_nonneg {A} (l : list A) : 0 <= PyList.len l.
Proof. unfold PyList.len. lia. Qed.


(** For a stop that is not negative, [l[:stop]] is the first [stop]
    elements. *)
Lemma slice_to_firstn {A} (l : list A) (stop : Z) :
  0 <= stop -> PyList.slice_to l stop = firstn (Z.to_nat stop) l.
Proof.
  intros Hstop. unfold PyList.slice_to, PyList.len.
  destruct (stop <? 0) eqn:Hneg; [lia|].
  destruct (Z.le_ge_cases stop (Z.of_nat (List.length l))) as [Hle|Hge].
  - now rewrite Z.min_l.
  - rewrite Z.min_r by lia. rewrite Nat2Z.id.
    rewrite firstn_all. symmetry. apply firstn_all2. lia.
Qed.

Lemma len_firstn {A} (l : list A) (n : Z) :
  0 <= n <= PyList.len l -> PyList.len (firstn (Z.to_nat n) l) = n.
Proof.
  unfold PyList.len. intros Hn. rewrite List.length_firstn. lia.
Qed.

Lemma getitem_nth_error {A} (l : list A) (i : Z) :
  0 <= i < PyList.len l ->
  exists x, nth_error l (Z.to_nat i) = Some x /\ PyList.getitem l i = Done x.
Proof.
  intros Hi. unfold PyList.getitem.
  destruct (i <? 0) eqn:Hneg; [lia|].
  replace ((0 <=? i) && (i <? PyList.len l)) with true
    by (symmetry; apply andb_true_intro; split; lia).
  destruct (nth_error l (Z.to_nat i)) as [x|] eqn:Hnth.
  - now exists x.
  - apply nth_error_None in Hnth. unfold PyList.len in Hi. lia.
Qed.

Lemma getitem_Done_nth_error {A} (l : list A) (i : Z) (x : A) :
  0 <= i -> PyList.getitem l i = Done x ->
  i < PyList.len l /\ nth_error l (Z.to_nat i) = Some x.
Proof.
  intros Hi. unfold PyList.getitem.
  destruct (i <? 0) eqn:Hneg; [lia|].
  destruct ((0 <=? i) && (i <? PyList.len l)) eqn:Hin; [|discriminate].
  apply andb_prop in Hin as [_ Hlt].
  destruct (nth_error l (Z.to_nat i)); [|discriminate].
  intros [= ->]. split; [lia | reflexivity].
Qed.

Lemma getitem_of_nth_error {A} (l : list A) (i : Z) (x : A) :
  0 <= i -> nth_error l (Z.to_nat i) = Some x -> PyList.getitem l i = Done x.
Proof.
  intros Hi Hnth.
  assert (Z.to_nat i < List.length l)%nat as Hlt
      by (apply nth_error_Some; congruence).
  destruct (getitem_nth_error l i) as (y & Hy & Hget);
    [unfold PyList.len; lia|].
  congruence.
Qed.

(** The element appended to a list is at the position of the old length. *)
Lemma getitem_snoc {A} (l : list A) (x : A) :
  PyList.getitem (l ++ [x]) (PyList.len l) = Done x.
Proof.
  apply getitem_of_nth_error; [apply len_nonneg|].
  unfold PyList.len. rewrite Nat2Z.id.
  rewrite nth_error_app2 by lia. now rewrite Nat.sub_diag.
Qed.

(** ** The handlers, as state transformers *)

Lemma history_invariant_iff s :
  history_invariant s <->
  (history s = [] /\ current_index s = -1)
  \/ 0 <= current_index s < PyList.len (history s).
Proof.
  unfold history_invariant. split.
  - intros [Hne He]. destruct (history s) as [|x h] eqn:Hh.
    + left. split; [reflexivity | now apply He].
    + right. now apply Hne.
  - intros [[He Hi]| Hi]; split; intros H; try assumption; try congruence.
    rewrite H in Hi. unfold PyList.len in Hi. simpl in Hi. lia.
Qed.

Lemma history_invariant_bounds s :
  history_invariant s -> -1 <= current_index s < PyList.len (history s).
Proof.
  intros H. apply history_invariant_iff in H as [[He Hi]|Hi]; [|lia].
  rewrite He, Hi. unfold PyList.len. simpl. lia.
Qed.

Lemma save_to_history_eq s :
  save_to_history s =
    (Done tt,
     SessionState (text s)
       (PyList.slice_to (history s) (current_index s + 1) ++ [text s])
       (current_index s + 1)).
Proof. reflexivity. Qed.

(** On a state whose pointer is not below -1, the commit keeps the
    snapshots up to the pointer and appends the buffer. *)
Lemma save_to_history_firstn s :
  -1 <= current_index s ->
  save_to_history s =
    (Done tt,
     SessionState (text s)
       (firstn (Z.to_nat (current_index s + 1)) (history s) ++ [text s])
       (current_index s + 1)).
Proof.
  intros Hi. rewrite save_to_history_eq, slice_to_firstn by lia. reflexivity.
Qed.

Lemma save_to_history_invariant s :
  -1 <= current_index s < PyList.len (history s) ->
  history_invariant (state_after save_to_history s)
  /\ in_sync (state_after save_to_history s).
Proof.
  intros Hi. unfold state_after. rewrite save_to_history_firstn by lia.
  cbn [snd].
  assert (PyList.len (firstn (Z.to_nat (current_index s + 1)) (history s))
          = current_index s + 1) as Hlen by (apply len_firstn; lia).
  split.
  - apply history_invariant_iff. right. cbn [history current_index].
    rewrite len_app, Hlen. unfold PyList.len. simpl. lia.
  - unfold in_sync. cbn [history current_index text].
    rewrite <- Hlen at 2. apply getitem_snoc.
Qed.

Lemma undo_eq s :
  undo s =
    if 0 <? current_index s then
      match PyList.getitem (history s) (current_index s - 1) with
      | Done t => (Done tt, SessionState t (history s) (current_index s - 1))
      | Raised e =>
          (Raised e, SessionState (text s) (history s) (current_index s - 1))
      end
    else (Done tt, s).
Proof.
  unfold undo, bind, read, when. cbn.
  destruct (0 <? current_index s); [|reflexivity].
  cbn. unfold lift. now destruct (PyList.getitem _ _).
Qed.

Lemma redo_eq s :
  redo s =
    if current_index s <? PyList.len (history s) - 1 then
      match PyList.getitem (history s) (current_index s + 1) with
      | Done t => (Done tt, SessionState t (history s) (current_index s + 1))
      | Raised e =>
          (Raised e, SessionState (text s) (history s) (current_index s + 1))
      end
    else (Done tt, s).
Proof.
  unfold redo, bind, read, when. cbn.
  destruct (current_index s <? PyList.len (history s) - 1); [|reflexivity].
  cbn. unfold lift. now destruct (PyList.getitem _ _).
Qed.

Lemma text_area_changed_eq text_area s :
  text_area_changed text_area s =
    if (text s =? text_area)%string then (Done tt, s)
    else save_to_history (SessionState text_area (history s) (current_index s)).
Proof.
  unfold text_area_changed, bind, read, when. cbn.
  now destruct (text s =? text_area)%string.
Qed.

Lemma start_dictation_eq heard s :
  start_dictation heard s =
    if truthy (recognize_speech_from_mic heard) then
      save_to_history
        (SessionState
           (text s ++ process_command (recognize_speech_from_mic heard))
           (history s) (current_index s))
    else (Done tt, s).
Proof.
  unfold start_dictation, when.
  now destruct (truthy (recognize_speech_from_mic heard)).
Qed.


(** ** The history invariant *)

Lemma keeps_ret : keeps_invariant (ret tt).
Proof. intros s Hs. now split. Qed.

Lemma keeps_bind (m1 m2 : script unit) :
  keeps_invariant m1 -> keeps_invariant m2 -> keeps_invariant (m1 ;; m2).
Proof.
  intros H1 H2 s Hs. destruct (H1 s Hs) as [Hout Hinv].
  unfold outcome, state_after, bind in *.
  destruct (m1 s) as [[[]|e] s1]; cbn in Hout, Hinv; [|discriminate].
  exact (H2 s1 Hinv).
Qed.

Lemma keeps_when cond (m : script unit) :
  keeps_invariant m -> keeps_invariant (when cond m).
Proof. destruct cond; [trivial | intros _; exact keeps_ret]. Qed.

(** Writing the buffer and committing it. *)
Lemma commit_text t s :
  history_invariant s ->
  let s' := state_after save_to_history
              (SessionState t (history s) (current_index s)) in
  history_invariant s' /\ in_sync s'.
Proof.
  intros Hs. apply history_invariant_bounds in Hs.
  now apply save_to_history_invariant.
Qed.

Lemma keeps_start_dictation heard : keeps_invariant (start_dictation heard).
Proof.
  intros s Hs. unfold outcome, state_after. rewrite start_dictation_eq.
  destruct (truthy (recognize_speech_from_mic heard)); [|now split].
  split; [reflexivity|]. now apply commit_text.
Qed.

Lemma keeps_clear_text : keeps_invariant clear_text.
Proof.
  intros s _. split; [reflexivity|].
  apply history_invariant_iff. left. now split.
Qed.

Lemma keeps_undo : keeps_invariant undo.
Proof.
  intros s Hs. pose proof (history_invariant_bounds s Hs) as Hb.
  unfold outcome, state_after. rewrite undo_eq.
  destruct (0 <? current_index s) eqn:Hpos; [|now split].
  apply Z.ltb_lt in Hpos.
  destruct (getitem_nth_error (history s) (current_index s - 1))
    as (t & _ & ->); [lia|].
  split; [reflexivity|]. apply history_invariant_iff. right.
  cbn [snd history current_index]. lia.
Qed.

Lemma keeps_redo : keeps_invariant redo.
Proof.
  intros s Hs. pose proof (history_invariant_bounds s Hs) as Hb.
  unfold outcome, state_after. rewrite redo_eq.
  destruct (current_index s <? PyList.len (history s) - 1) eqn:Hlt;
    [|now split].
  apply Z.ltb_lt in Hlt.
  destruct (getitem_nth_error (history s) (current_index s + 1))
    as (t & _ & ->); [lia|].
  split; [reflexivity|]. apply history_invariant_iff. right.
  cbn [snd history current_index]. lia.
Qed.

Lemma keeps_load_from_file file : keeps_invariant (load_from_file file).
Proof.
  intros s Hs. destruct file as [contents|]; now split.
Qed.

Lemma keeps_text_area_changed text_area :
  keeps_invariant (text_area_changed text_area).
Proof.
  intros s Hs. unfold outcome, state_after. rewrite text_area_changed_eq.
  destruct (text s =? text_area)%string; [now split|].
  split; [reflexivity|]. now apply commit_text.
Qed.

Lemma keeps_sidebar r : keeps_invariant (sidebar r).
Proof.
  unfold sidebar.
  apply keeps_bind; [apply keeps_when, keeps_start_dictation|].
  apply keeps_bind; [apply keeps_when, keeps_clear_text|].
  apply keeps_bind; [apply keeps_when, keeps_undo|].
  apply keeps_bind; [apply keeps_when, keeps_redo|].
  apply keeps_when, keeps_load_from_file.
Qed.

Lemma keeps_script_run r : keeps_invariant (script_run r).
Proof.
  apply keeps_bind; [apply keeps_sidebar | apply keeps_text_area_changed].
Qed.

Lemma initial_state_invariant : history_invariant initial_state.
Proof. apply history_invariant_iff. left. now split. Qed.

Lemma reachable_invariant s : reachable s -> history_invariant s.
Proof.
  induction 1 as [|s r _ IH].
  - exact initial_state_invariant.
  - now apply keeps_script_run.
Qed.

(** When "Start Dictation" is the pressed button, the sidebar is that
    handler. *)
Lemma sidebar_start_dictation r s :
  st_button r StartDictation = true ->
  state_after (sidebar r) s = state_after (start_dictation (heard r)) s.
Proof.
  destruct r as [[[]|] said file text_area]; try discriminate.
  intros _. unfold sidebar, st_button, state_after, bind, when. cbn.
  rewrite start_dictation_eq.
  destruct (truthy (recognize_speech_from_mic said)); reflexivity.
Qed.

Lemma script_run_state r s :
  history_invariant s ->
  state_after (script_run r) s =
    state_after (text_area_changed (text_area r)) (state_after (sidebar r) s).
Proof.
  intros Hs. destruct (keeps_sidebar r s Hs) as [Hout _].
  unfold script_run, state_after, outcome, bind in *.
  destruct (sidebar r s) as [[[]|e] s1]; [reflexivity | discriminate].
Qed.

(** A run that commits ends with the buffer on the pointer's snapshot. *)
Lemma script_run_commits r s :
  history_invariant s -> commits r s = true ->
  in_sync (state_after (script_run r) s).
Proof.
  intros Hs Hcommit. rewrite script_run_state by assumption.
  destruct (keeps_sidebar r s Hs) as [_ Hinv].
  unfold commits in Hcommit.
  remember (state_after (sidebar r) s) as s1 eqn:Hs1.
  assert (state_after (text_area_changed (text_area r)) s1 =
            if (text s1 =? text_area r)%string then s1
            else state_after save_to_history
                   (SessionState (text_area r) (history s1) (current_index s1)))
    as -> by (unfold state_after; rewrite text_area_changed_eq;
              now destruct (text s1 =? text_area r)%string).
  destruct (text s1 =? text_area r)%string; [|now apply commit_text].
  rewrite orb_false_r in Hcommit. apply andb_prop in Hcommit as [Hb Hres].
  rewrite Hs1, (sidebar_start_dictation r s Hb).
  assert (state_after (start_dictation (heard r)) s =
            state_after save_to_history
              (SessionState
                 (text s ++ process_command (recognize_speech_from_mic (heard r)))
                 (history s) (current_index s)))
    as -> by (unfold state_after; now rewrite start_dictation_eq, Hres).
  now apply commit_text.
Qed.

(** C1: in every reachable state a non-empty history has the pointer
    inside it and an empty history has the pointer at -1; writing the
    buffer and calling [save_to_history], as both committing handlers do,
    leaves the buffer equal to the snapshot under the pointer; and every
    run of the script from such a state (dictation, manual edit, clear,
    undo, redo, load) finishes without raising, keeps the invariant after
    the pressed button's handler and at its end, and, when it committed a
    snapshot, ends with the buffer equal to the snapshot under the
    pointer. *)
Theorem history_invariant_holds s :
  reachable s ->
  ((history s <> [] -> 0 <= current_index s < PyList.len (history s))
   /\ (history s = [] -> current_index s = -1))
  /\ (forall t,
         in_sync (state_after (set_text t ;; save_to_history) s))
  /\ forall r,
      outcome (script_run r) s = Done tt
      /\ history_invariant (state_after (sidebar r) s)
      /\ history_invariant (state_after (script_run r) s)
      /\ (commits r s = true ->
          PyList.getitem (history (state_after (script_run r) s))
            (current_index (state_after (script_run r) s))
          = Done (text (state_after (script_run r) s))).
Proof.
  intros Hreach. pose proof (reachable_invariant s Hreach) as Hs.
  split; [exact Hs|].
  split; [intros t; now apply (commit_text t s)|]. intros r.
  destruct (keeps_script_run r s Hs) as [Hout Hinv].
  split; [exact Hout|].
  split; [now apply keeps_sidebar|].
  split; [exact Hinv|].
  intros Hcommit. now apply script_run_commits.
Qed.

Lemma history_invariant_holds_witness :
  reachable after_load
  /\ 0 <= current_index after_load < PyList.len (history after_load).
Proof.
  assert (reachable after_load) as Hreach
      by (unfold after_load; repeat apply reachable_rerun;
          apply reachable_initial).
  split; [exact Hreach|].
  destruct (history_invariant_holds after_load Hreach) as [[Hne _] _].
  apply Hne. vm_compute. discriminate.
Defined.

(** ** Edits, undo and redo *)

Lemma undo_step s :
  history_invariant s ->
  exists t,
    undo s =
      (Done tt,
       SessionState t (history s)
         (if 0 <? current_index s then current_index s - 1
          else current_index s)).
Proof.
  intros Hs. pose proof (history_invariant_bounds s Hs) as Hb.
  rewrite undo_eq. destruct (0 <? current_index s) eqn:Hpos.
  - apply Z.ltb_lt in Hpos.
    destruct (getitem_nth_error (history s) (current_index s - 1))
      as (t & _ & ->); [lia|].
    now exists t.
  - exists (text s). now destruct s.
Qed.

(** Pressing "Undo" [n] times leaves the history as it is and moves the
    pointer down by [n], not below 0. *)
Lemma undo_times_state n s :
  history_invariant s ->
  outcome (undo_times n) s = Done tt
  /\ history_invariant (state_after (undo_times n) s)
  /\ history (state_after (undo_times n) s) = history s
  /\ current_index (state_after (undo_times n) s)
     = Z.max (Z.min (current_index s) 0) (current_index s - Z.of_nat n).
Proof.
  revert s. induction n as [|n IH]; intros s Hs.
  - unfold outcome, state_after. cbn [undo_times ret fst snd].
    split; [reflexivity|]. split; [exact Hs|]. split; [reflexivity|].
    rewrite Z.sub_0_r. lia.
  - destruct (undo_step s Hs) as (t & Hundo).
    destruct (keeps_undo s Hs) as [_ Hinv].
    unfold state_after in Hinv. rewrite Hundo in Hinv. cbn [snd] in Hinv.
    specialize (IH _ Hinv). cbn [history current_index] in IH.
    unfold outcome, state_after in *. cbn [undo_times]. unfold bind.
    rewrite Hundo. destruct IH as (Hout & Hinv' & Hh & Hi).
    split; [exact Hout|]. split; [exact Hinv'|]. split; [exact Hh|].
    rewrite Hi. destruct (0 <? current_index s) eqn:Hpos.
    + apply Z.ltb_lt in Hpos. lia.
    + apply Z.ltb_ge in Hpos. lia.
Qed.

Lemma text_area_changed_spec s newText :
  -1 <= current_index s ->
  text_area_changed newText s = (Done tt, applyEdit_spec newText s).
Proof.
  intros Hi. rewrite text_area_changed_eq. unfold applyEdit_spec.
  rewrite (String.eqb_sym newText (text s)).
  destruct (text s =? newText)%string; [reflexivity|].
  now rewrite save_to_history_firstn by (cbn; lia).
Qed.

(** C2: the text area handler is [applyEdit]: a text that differs from the
    buffer cuts the history after the pointer, is appended, moves the
    pointer up by one and becomes the buffer; the same text changes
    nothing.  After [n] presses of "Undo" a new edit therefore leaves
    exactly the snapshots up to the pointer the undos reached, and the new
    text after them. *)
Theorem text_area_changed_applyEdit s newText :
  -1 <= current_index s ->
  text_area_changed newText s = (Done tt, applyEdit_spec newText s)
  /\ forall n,
      history_invariant s ->
      let s1 := state_after (undo_times n) s in
      let s2 := state_after (text_area_changed newText) s1 in
      newText <> text s1 ->
      history s1 = history s
      /\ current_index s1
         = Z.max (Z.min (current_index s) 0) (current_index s - Z.of_nat n)
      /\ history s2
         = (firstn (Z.to_nat (current_index s1 + 1)) (history s) ++ [newText])%list
      /\ PyList.len (history s2) = current_index s1 + 2
      /\ current_index s2 = current_index s1 + 1
      /\ text s2 = newText.
Proof.
  intros Hi. split; [now apply text_area_changed_spec|].
  intros n Hs s1 s2 Hnew.
  destruct (undo_times_state n s Hs) as (_ & Hinv1 & Hh1 & Hi1).
  fold s1 in Hinv1, Hh1, Hi1.
  pose proof (history_invariant_bounds s1 Hinv1) as Hb1.
  assert (s2 = SessionState newText
                 (firstn (Z.to_nat (current_index s1 + 1)) (history s1)
                    ++ [newText])
                 (current_index s1 + 1)) as Hs2.
  { unfold s2, state_after. rewrite text_area_changed_spec by lia.
    unfold applyEdit_spec.
    destruct (newText =? text s1)%string eqn:Heq; [|reflexivity].
    apply String.eqb_eq in Heq. contradiction. }
  rewrite Hs2. cbn [history current_index text]. rewrite Hh1 in *.
  repeat split; try assumption.
  rewrite len_app, len_firstn by lia. unfold PyList.len. simpl. lia.
Qed.

Lemma text_area_changed_applyEdit_witness :
  -1 <= current_index (SessionState "c" ["a"; "b"; "c"] 2)
  /\ text_area_changed "d"
       (state_after (undo_times 2) (SessionState "c" ["a"; "b"; "c"] 2))
     = (Done tt, SessionState "d" ["a"; "d"] 1)
  /\ history
       (state_after (text_area_changed "d")
          (state_after (undo_times 2) (SessionState "c" ["a"; "b"; "c"] 2)))
     = (firstn 1 ["a"; "b"; "c"] ++ ["d"])%list.
Proof.
  split; [cbn; lia|]. split; [reflexivity|].
  refine (proj1 (proj2 (proj2
    (proj2 (text_area_changed_applyEdit
              (SessionState "c" ["a"; "b"; "c"] 2) "d" _) 2%nat _ _)))).
  - cbn. lia.
  - apply history_invariant_iff. right. cbn. lia.
  - discriminate.
Defined.

(** C3, as the code has it: from a state whose buffer is the snapshot
    under the pointer, with undo enabled and redo enabled after it, undo
    followed by redo finishes in the very state it started from. *)
Theorem undo_redo_roundtrip s :
  in_sync s ->
  0 < current_index s ->
  current_index (state_after undo s)
    < PyList.len (history (state_after undo s)) - 1 ->
  (undo ;; redo) s = (Done tt, s).
Proof.
  unfold in_sync. intros Hsync Hpos _.
  destruct (getitem_Done_nth_error _ _ _ (Z.lt_le_incl _ _ Hpos) Hsync)
    as [Hlt _].
  destruct (getitem_nth_error (history s) (current_index s - 1))
    as (t & _ & Hprev); [lia|].
  unfold bind. rewrite undo_eq, Hprev.
  replace (0 <? current_index s) with true by (symmetry; now apply Z.ltb_lt).
  rewrite redo_eq. cbn [history current_index text].
  replace (current_index s - 1 <? PyList.len (history s) - 1) with true
    by (symmetry; apply Z.ltb_lt; lia).
  replace (current_index s - 1 + 1) with (current_index s) by lia.
  rewrite Hsync. now destruct s.
Qed.

Lemma undo_redo_roundtrip_witness :
  in_sync (SessionState "b" ["a"; "b"] 1)
  /\ (undo ;; redo) (SessionState "b" ["a"; "b"] 1)
     = (Done tt, SessionState "b" ["a"; "b"] 1).
Proof.
  split; [reflexivity|].
  apply (undo_redo_roundtrip (SessionState "b" ["a"; "b"] 1)).
  - reflexivity.
  - reflexivity.
  - reflexivity.
Defined.

(** C3 fails as stated: after typing "a", typing "b" and loading a file
    that holds "zzz", undo and then redo are both enabled and leave "b" in
    the buffer, not "zzz". *)
Lemma undo_redo_loses_loaded_text :
  reachable after_load
  /\ after_load = SessionState "zzz" ["a"; "b"] 1
  /\ 0 < current_index after_load
  /\ current_index (state_after undo after_load)
       < PyList.len (history (state_after undo after_load)) - 1
  /\ (undo ;; redo) after_load = (Done tt, SessionState "b" ["a"; "b"] 1)
  /\ text (state_after (undo ;; redo) after_load) <> text after_load.
Proof.
  split.
  { unfold after_load; repeat apply reachable_rerun; apply reachable_initial. }
  repeat split. vm_compute. discriminate.
Qed.

(** C7: "Clear Text" leaves the empty buffer, the empty history and the
    pointer -1, and in that state "Undo" and "Redo" change nothing. *)
Theorem clear_text_resets s :
  let s' := state_after clear_text s in
  outcome clear_text s = Done tt
  /\ text s' = EmptyString
  /\ history s' = []
  /\ current_index s' = -1
  /\ undo s' = (Done tt, s')
  /\ redo s' = (Done tt, s').
Proof.
  repeat split.
Qed.

(** ** Dictation with an empty transform *)

Lemma append_empty_r (s : string) : s ++ EmptyString = s.
Proof. induction s as [|c s IH]; [reflexivity | simpl; now rewrite IH]. Qed.

Lemma truthy_iff s : truthy s = true <-> s <> EmptyString.
Proof.
  unfold truthy. rewrite negb_true_iff. apply String.eqb_neq.
Qed.

(** An utterance with "delete" and without "add" is not empty and is
    transformed to the empty string. *)
Lemma process_command_delete said :
  mentions Delete said = true -> mentions Add said = false ->
  said <> EmptyString /\ process_command said = EmptyString.
Proof.
  intros Hdel Hadd. split.
  - intros ->. discriminate Hdel.
  - rewrite process_command_branches. cbv zeta. now rewrite Hadd, Hdel.
Qed.

(** C10, as the code has it: a recognised utterance whose transform is
    empty (any utterance with "delete" and without "add") leaves the buffer
    as it is and still commits it: the history is cut after the pointer,
    the buffer is appended and the pointer moves up by one.  When the
    buffer was the snapshot under the pointer, the new snapshot repeats the
    one before it. *)
Theorem empty_dictation_commits said :
  (mentions Delete said = true -> mentions Add said = false ->
   said <> EmptyString /\ process_command said = EmptyString)
  /\ forall s,
      history_invariant s ->
      said <> EmptyString ->
      process_command said = EmptyString ->
      let s' := state_after (start_dictation (Recognized said)) s in
      outcome (start_dictation (Recognized said)) s = Done tt
      /\ text s' = text s
      /\ history s'
         = (firstn (Z.to_nat (current_index s + 1)) (history s) ++ [text s])%list
      /\ current_index s' = current_index s + 1
      /\ (in_sync s ->
          PyList.getitem (history s') (current_index s) = Done (text s)
          /\ PyList.getitem (history s') (current_index s + 1) = Done (text s)).
Proof.
  split; [apply process_command_delete|].
  intros s Hs Hsaid Hempty s'.
  pose proof (history_invariant_bounds s Hs) as Hb.
  assert (start_dictation (Recognized said) s =
            (Done tt,
             SessionState (text s)
               (firstn (Z.to_nat (current_index s + 1)) (history s) ++ [text s])
               (current_index s + 1))) as Hrun.
  { rewrite start_dictation_eq. cbn [recognize_speech_from_mic].
    apply truthy_iff in Hsaid. rewrite Hsaid, Hempty, append_empty_r.
    now rewrite save_to_history_firstn by (cbn; lia). }
  unfold s', outcome, state_after. rewrite Hrun.
  cbn [fst snd text history current_index].
  do 4 (split; [reflexivity|]).
  unfold in_sync. intros Hsync. split.
  - assert (0 <= current_index s) as Hpos.
    { apply history_invariant_iff in Hs as [[He Hm]|]; [|lia].
      rewrite He, Hm in Hsync. discriminate Hsync. }
    destruct (getitem_Done_nth_error _ _ _ Hpos Hsync) as [_ Hnth].
    apply getitem_of_nth_error; [assumption|].
    rewrite nth_error_app1.
    + rewrite nth_error_firstn.
      replace (Z.to_nat (current_index s) <? Z.to_nat (current_index s + 1))%nat
        with true by (symmetry; apply Nat.ltb_lt; lia).
      assumption.
    + rewrite List.length_firstn. unfold PyList.len in Hb. lia.
  - rewrite <- (len_firstn (history s) (current_index s + 1)) at 2 by lia.
    apply getitem_snoc.
Qed.

Lemma empty_dictation_commits_witness :
  let s := SessionState "a" ["a"] 0 in
  let s' := state_after (start_dictation (Recognized "Delete that")) s in
  process_command "Delete that" = EmptyString
  /\ history_invariant s
  /\ in_sync s
  /\ history s' = ["a"; "a"]
  /\ PyList.getitem (history s') 0 = Done "a"
  /\ PyList.getitem (history s') 1 = Done "a".
Proof.
  intros s s'.
  destruct (empty_dictation_commits "Delete that") as [Hdelete Hcommit].
  destruct (Hdelete eq_refl eq_refl) as [Hsaid Hempty].
  assert (history_invariant s) as Hs
      by (apply history_invariant_iff; right; cbn; lia).
  destruct (Hcommit s Hs Hsaid Hempty) as (_ & _ & _ & _ & Hdup).
  split; [exact Hempty|]. split; [exact Hs|]. split; [reflexivity|].
  split; [reflexivity|]. exact (Hdup eq_refl).
Defined.

(** C10 fails as stated: in a new session the history is empty, so the
    snapshot that "delete" commits has none before it to repeat; and
    "add delete" contains "delete" and is not transformed to the empty
    string. *)
Lemma first_empty_dictation_has_no_duplicate :
  let s' := state_after (start_dictation (Recognized "delete")) initial_state in
  reachable initial_state
  /\ process_command "delete" = EmptyString
  /\ history initial_state = []
  /\ history s' = [EmptyString]
  /\ current_index s' = 0
  /\ (forall i x, ~ (nth_error (history s') i = Some x
                     /\ nth_error (history s') (S i) = Some x))
  /\ mentions Delete "add delete" = true
  /\ process_command "add delete" = "delete".
Proof.
  cbv zeta. split; [apply reachable_initial|].
  repeat split.
  intros i x [_ Hnext]. change (nth_error (@nil string) i = Some x) in Hnext.
  destruct i; discriminate.
Qed.

(** ** Sentiment and translation *)

(** C8: the tone of a text is the polarity thresholded at 0.1 and -0.1:
    Positive above 0.1, Negative below -0.1, Neutral otherwise; polarity
    0.05 is Neutral, 0.5 is Positive and -0.3 is Negative. *)
Theorem analyze_sentiment_tone
  (blob_sentiment : string -> float * float) (text : string) :
  let polarity := fst (blob_sentiment text) in
  let tone := snd (analyze_sentiment blob_sentiment text) in
  fst (analyze_sentiment blob_sentiment text) = blob_sentiment text
  /\ (tone = Positive <-> (0.1 <? polarity)%float = true)
  /\ (tone = Negative <->
      (0.1 <? polarity)%float = false /\ (polarity <? -0.1)%float = true)
  /\ (tone = Neutral <->
      (0.1 <? polarity)%float = false /\ (polarity <? -0.1)%float = false)
  /\ (forall subjectivity,
         analyze_sentiment (fun _ => (0.05%float, subjectivity)) text
         = (0.05%float, subjectivity, Neutral))
  /\ (forall subjectivity,
         analyze_sentiment (fun _ => (0.5%float, subjectivity)) text
         = (0.5%float, subjectivity, Positive))
  /\ (forall subjectivity,
         analyze_sentiment (fun _ => ((-0.3)%float, subjectivity)) text
         = ((-0.3)%float, subjectivity, Negative)).
Proof.
  cbv zeta. unfold analyze_sentiment. cbn [fst snd].
  split; [now destruct (blob_sentiment text)|].
  unfold tone_of.
  destruct (0.1 <? fst (blob_sentiment text))%float;
    destruct (fst (blob_sentiment text) <? -0.1)%float;
    repeat split; intros; try reflexivity; try discriminate;
    try (destruct H; discriminate).
Qed.

(** C9: when the translator raises an exception, [translate_text] returns
    the text it was given and raises nothing. *)
Theorem translate_text_fail_soft
  (translator_translate : string -> string -> result Translated.t)
  (text dest_lang_code : string) (e : exception) :
  translator_translate text dest_lang_code = Raised e ->
  is_Exception e = true ->
  fst (translate_text translator_translate text dest_lang_code) = Done text.
Proof.
  intros Hraise Hexc. unfold translate_text. now rewrite Hraise, Hexc.
Qed.

Lemma translate_text_fail_soft_witness :
  translate_text (fun _ _ => Raised (Exception "timed out")) "good morning" "fr"
  = (Done "good morning", [st_error "Translation failed: timed out"])
  /\ fst (translate_text (fun _ _ => Raised (Exception "timed out"))
            "good morning" "fr")
     = Done "good morning".
Proof.
  split; [reflexivity|].
  apply (translate_text_fail_soft _ "good morning" "fr" (Exception "timed out"));
    reflexivity.
Defined.

(** * Further properties of the code *)

(** ** Lowercasing and trimming *)

Lemma isspace_lower_char c : PyStr.isspace (PyStr.lower_char c) = PyStr.isspace c.
Proof. destruct c as [[] [] [] [] [] [] [] []]; reflexivity. Qed.

Lemma lower_char_idem c :
  PyStr.lower_char (PyStr.lower_char c) = PyStr.lower_char c.
Proof. destruct c as [[] [] [] [] [] [] [] []]; reflexivity. Qed.

Lemma lower_idem s : PyStr.lower (PyStr.lower s) = PyStr.lower s.
Proof.
  induction s as [|c s IH]; [reflexivity|].
  cbn [PyStr.lower]. now rewrite lower_char_idem, IH.
Qed.

Lemma lower_app s t : PyStr.lower (s ++ t) = PyStr.lower s ++ PyStr.lower t.
Proof.
  induction s as [|c s IH]; [reflexivity|].
  cbn [PyStr.lower append]. now rewrite IH.
Qed.

Lemma lower_lstrip s : PyStr.lower (PyStr.lstrip s) = PyStr.lstrip (PyStr.lower s).
Proof.
  induction s as [|c s IH]; [reflexivity|].
  cbn [PyStr.lower PyStr.lstrip]. rewrite isspace_lower_char.
  now destruct (PyStr.isspace c).
Qed.

Lemma lower_rstrip s : PyStr.lower (PyStr.rstrip s) = PyStr.rstrip (PyStr.lower s).
Proof.
  induction s as [|c s IH]; [reflexivity|].
  cbn [PyStr.lower PyStr.rstrip]. rewrite <- IH, isspace_lower_char.
  destruct (PyStr.rstrip s) as [|b r]; [|reflexivity].
  now destruct (PyStr.isspace c).
Qed.

Lemma lower_strip s : PyStr.lower (PyStr.strip s) = PyStr.strip (PyStr.lower s).
Proof. unfold PyStr.strip. now rewrite lower_rstrip, lower_lstrip. Qed.

Lemma lstrip_idem s : PyStr.lstrip (PyStr.lstrip s) = PyStr.lstrip s.
Proof.
  induction s as [|c s IH]; [reflexivity|].
  cbn [PyStr.lstrip]. destruct (PyStr.isspace c) eqn:Hc; [exact IH|].
  cbn [PyStr.lstrip]. now rewrite Hc.
Qed.

Lemma rstrip_idem s : PyStr.rstrip (PyStr.rstrip s) = PyStr.rstrip s.
Proof.
  induction s as [|c s IH]; [reflexivity|].
  cbn [PyStr.rstrip]. destruct (PyStr.rstrip s) as [|b r] eqn:Hr.
  - destruct (PyStr.isspace c) eqn:Hc; [reflexivity|].
    cbn [PyStr.rstrip]. now rewrite Hc.
  - change (PyStr.rstrip (String c (String b r)))
      with (match PyStr.rstrip (String b r) with
            | EmptyString =>
                if PyStr.isspace c then EmptyString else String c EmptyString
            | r' => String c r'
            end).
    now rewrite IH.
Qed.

Lemma lstrip_rstrip s :
  PyStr.lstrip (PyStr.rstrip s) = PyStr.rstrip (PyStr.lstrip s).
Proof.
  induction s as [|c s IH]; [reflexivity|].
  cbn [PyStr.lstrip]. destruct (PyStr.isspace c) eqn:Hc.
  - rewrite <- IH. cbn [PyStr.rstrip]. rewrite Hc.
    destruct (PyStr.rstrip s); [reflexivity|].
    cbn [PyStr.lstrip]. now rewrite Hc.
  - cbn [PyStr.rstrip]. rewrite Hc.
    destruct (PyStr.rstrip s); cbn [PyStr.lstrip]; now rewrite Hc.
Qed.

Lemma strip_idem s : PyStr.strip (PyStr.strip s) = PyStr.strip s.
Proof.
  unfold PyStr.strip. now rewrite lstrip_rstrip, lstrip_idem, rstrip_idem.
Qed.

(** A text that ends with [b], itself not empty and without white space at
    its end, has no white space at its end. *)
Lemma rstrip_app_fixed s b :
  b <> EmptyString -> PyStr.rstrip b = b -> PyStr.rstrip (s ++ b) = s ++ b.
Proof.
  intros Hne Hb. induction s as [|c s IH]; [exact Hb|].
  cbn [append PyStr.rstrip]. rewrite IH.
  destruct (s ++ b) eqn:Happ; [|reflexivity].
  destruct s; [contradiction | discriminate Happ].
Qed.

(** A text between a head that starts without white space and a tail that
    ends without white space is its own trimming. *)
Lemma strip_wrapped c a m b :
  PyStr.isspace c = false -> b <> EmptyString -> PyStr.rstrip b = b ->
  PyStr.strip (String c a ++ m ++ b) = String c a ++ m ++ b.
Proof.
  intros Hc Hne Hb. unfold PyStr.strip.
  cbn [append PyStr.lstrip]. rewrite Hc.
  change (String c (a ++ m ++ b)) with (String c a ++ (m ++ b)).
  apply rstrip_app_fixed.
  - destruct m; [exact Hne | discriminate].
  - now apply rstrip_app_fixed.
Qed.

Lemma lower_replace_from old k s :
  PyStr.lower s = s ->
  PyStr.lower (PyStr.replace_from old EmptyString k s)
  = PyStr.replace_from old EmptyString k s.
Proof.
  revert k. induction s as [|c s IH]; intros k Hs; [reflexivity|].
  cbn [PyStr.lower] in Hs. injection Hs as Hc Hs.
  cbn [PyStr.replace_from]. destruct k as [|k]; [|now apply IH].
  destruct (prefix old (String c s)).
  - cbn [append]. now apply IH.
  - cbn [PyStr.lower]. now rewrite Hc, IH.
Qed.

Lemma lower_normalise utterance :
  PyStr.lower (normalise utterance) = normalise utterance.
Proof. unfold normalise. now rewrite lower_strip, lower_idem. Qed.

Lemma lower_remainder k utterance :
  PyStr.lower (remainder k (normalise utterance))
  = remainder k (normalise utterance).
Proof.
  unfold remainder. rewrite lower_strip. f_equal.
  destruct k; apply lower_replace_from, lower_normalise.
Qed.

Lemma strip_branch k command : PyStr.strip (branch k command) = branch k command.
Proof.
  destruct k; cbn [branch]; unfold remainder;
    try apply strip_idem; try reflexivity;
    apply strip_wrapped; try reflexivity; discriminate.
Qed.

(** ** The voice command transform, further *)

(** X1: the transform does not see the case of the letters of the
    utterance nor the white space around it. *)
Theorem process_command_ignores_case_and_margins utterance :
  process_command (PyStr.lower utterance) = process_command utterance
  /\ process_command (PyStr.strip utterance) = process_command utterance.
Proof.
  assert (normalise (PyStr.lower utterance) = normalise utterance) as Hl
      by (unfold normalise; now rewrite lower_idem).
  assert (normalise (PyStr.strip utterance) = normalise utterance) as Hs
      by (unfold normalise; now rewrite lower_strip, strip_idem).
  unfold process_command. cbv zeta. now rewrite Hl, Hs.
Qed.

(** X2: the transform never returns a capital letter: its result is its own
    lowercasing. *)
Theorem process_command_lowercase utterance :
  PyStr.lower (process_command utterance) = process_command utterance.
Proof.
  rewrite process_command_first_match.
  destruct (first_match utterance) as [k|]; [|apply lower_normalise].
  destruct k; cbn [branch]; rewrite ?lower_app, ?lower_remainder; reflexivity.
Qed.

(** X3: the transform never returns a text with white space at its start
    or at its end. *)
Theorem process_command_trimmed utterance :
  PyStr.strip (process_command utterance) = process_command utterance.
Proof.
  rewrite process_command_first_match.
  destruct (first_match utterance) as [k|]; [apply strip_branch|].
  apply strip_idem.
Qed.

(** X4: on an utterance without any keyword the transform is idempotent. *)
Theorem process_command_idempotent utterance :
  (forall k, mentions k utterance = false) ->
  process_command (process_command utterance) = process_command utterance.
Proof.
  intros Hnone.
  assert (first_match utterance = None) as Hfirst.
  { destruct (first_match utterance) as [k|] eqn:Hk; [|reflexivity].
    apply first_match_spec in Hk as [Hk _]. rewrite Hnone in Hk. discriminate. }
  assert (first_match (normalise utterance) = None) as Hfirst'.
  { destruct (first_match (normalise utterance)) as [k|] eqn:Hk; [|reflexivity].
    apply first_match_spec in Hk as [Hk _]. unfold mentions in Hk.
    rewrite lower_normalise, contains_normalise, Hnone in Hk. discriminate. }
  rewrite (process_command_first_match utterance), Hfirst.
  rewrite process_command_first_match, Hfirst'.
  unfold normalise at 1. fold (normalise utterance).
  rewrite lower_normalise. unfold normalise. apply strip_idem.
Qed.

Lemma process_command_idempotent_witness :
  (forall k, mentions k "  Good Morning " = false)
  /\ process_command (process_command "  Good Morning ")
     = process_command "  Good Morning ".
Proof.
  split; [intros []; reflexivity|].
  apply (process_command_idempotent "  Good Morning ").
  intros []; reflexivity.
Defined.

(** ** The session, further *)

Lemma prefix_app s t : prefix s (s ++ t) = true.
Proof.
  induction s as [|c s IH]; [now destruct t|].
  cbn [append prefix]. now destruct (ascii_dec c c).
Qed.

(** In sync with the pointer at or above 0, the pointer is inside the
    history. *)
Lemma in_sync_bounds s :
  in_sync s -> 0 <= current_index s ->
  current_index s < PyList.len (history s).
Proof.
  intros Hsync Hpos. now destruct (getitem_Done_nth_error _ _ _ Hpos Hsync).
Qed.

(** An enabled "Undo" moves the pointer down and takes the snapshot there. *)
Lemma undo_moves s :
  0 < current_index s <= PyList.len (history s) ->
  exists t,
    PyList.getitem (history s) (current_index s - 1) = Done t
    /\ undo s = (Done tt, SessionState t (history s) (current_index s - 1)).
Proof.
  intros Hi. rewrite undo_eq.
  replace (0 <? current_index s) with true by (symmetry; apply Z.ltb_lt; lia).
  destruct (getitem_nth_error (history s) (current_index s - 1))
    as (t & _ & Hget); [lia|].
  exists t. now rewrite Hget.
Qed.

(** An enabled "Redo" moves the pointer up and takes the snapshot there. *)
Lemma redo_moves s :
  -1 <= current_index s < PyList.len (history s) - 1 ->
  exists t,
    PyList.getitem (history s) (current_index s + 1) = Done t
    /\ redo s = (Done tt, SessionState t (history s) (current_index s + 1)).
Proof.
  intros Hi. rewrite redo_eq.
  replace (current_index s <? PyList.len (history s) - 1) with true
    by (symmetry; apply Z.ltb_lt; lia).
  destruct (getitem_nth_error (history s) (current_index s + 1))
    as (t & _ & Hget); [lia|].
  exists t. now rewrite Hget.
Qed.

Lemma undo_times_in_sync n s :
  in_sync s -> Z.of_nat n <= current_index s ->
  let s' := state_after (undo_times n) s in
  outcome (undo_times n) s = Done tt
  /\ history s' = history s
  /\ current_index s' = current_index s - Z.of_nat n
  /\ in_sync s'.
Proof.
  revert s. induction n as [|n IH]; intros s Hsync Hn.
  - cbv zeta. unfold outcome, state_after. cbn [undo_times ret fst snd].
    repeat split; try assumption. lia.
  - pose proof (in_sync_bounds s Hsync ltac:(lia)) as Hlt.
    destruct (undo_moves s) as (t & Hget & Hundo); [lia|].
    set (s1 := SessionState t (history s) (current_index s - 1)).
    assert (in_sync s1) as Hsync1 by exact Hget.
    destruct (IH s1 Hsync1) as (Hout & Hh & Hi & Hs); [cbn; lia|].
    cbv zeta. unfold outcome, state_after in *.
    cbn [undo_times]. unfold bind. rewrite Hundo. fold s1.
    repeat split; try assumption. rewrite Hi. cbn. lia.
Qed.

Lemma redo_times_in_sync n s :
  in_sync s -> 0 <= current_index s ->
  current_index s + Z.of_nat n <= PyList.len (history s) - 1 ->
  let s' := state_after (redo_times n) s in
  outcome (redo_times n) s = Done tt
  /\ history s' = history s
  /\ current_index s' = current_index s + Z.of_nat n
  /\ in_sync s'.
Proof.
  revert s. induction n as [|n IH]; intros s Hsync Hpos Hn.
  - cbv zeta. unfold outcome, state_after. cbn [redo_times ret fst snd].
    repeat split; try assumption. lia.
  - destruct (redo_moves s) as (t & Hget & Hredo); [lia|].
    set (s1 := SessionState t (history s) (current_index s + 1)).
    assert (in_sync s1) as Hsync1 by exact Hget.
    destruct (IH s1 Hsync1) as (Hout & Hh & Hi & Hs); [cbn; lia | cbn; lia|].
    cbv zeta. unfold outcome, state_after in *.
    cbn [redo_times]. unfold bind. rewrite Hredo. fold s1.
    repeat split; try assumption. rewrite Hi. cbn. lia.
Qed.

(** Two states with the same history and pointer, both in sync, are the
    same state. *)
Lemma in_sync_unique s s' :
  in_sync s -> in_sync s' ->
  history s' = history s -> current_index s' = current_index s -> s' = s.
Proof.
  unfold in_sync. destruct s as [t h i], s' as [t' h' i']. cbn.
  intros Hs Hs' -> ->. rewrite Hs in Hs'. now injection Hs' as ->.
Qed.

Lemma run_pair {A} (m : script A) s :
  m s = (outcome m s, state_after m s).
Proof. unfold outcome, state_after. now destruct (m s). Qed.

(** X5: [n] presses of "Undo" followed by [n] presses of "Redo" bring back
    the state they started from, when the buffer is the snapshot under the
    pointer and there are [n] snapshots below it. *)
Theorem undo_times_redo_times_roundtrip n s :
  in_sync s -> Z.of_nat n <= current_index s ->
  (undo_times n ;; redo_times n) s = (Done tt, s).
Proof.
  intros Hsync Hn.
  pose proof (in_sync_bounds s Hsync ltac:(lia)) as Hlt.
  destruct (undo_times_in_sync n s Hsync Hn) as (Hout1 & Hh1 & Hi1 & Hs1).
  set (s1 := state_after (undo_times n) s) in *.
  destruct (redo_times_in_sync n s1 Hs1) as (Hout2 & Hh2 & Hi2 & Hs2);
    [lia | rewrite Hh1; lia|].
  unfold bind. rewrite (run_pair (undo_times n) s), Hout1. fold s1.
  rewrite (run_pair (redo_times n) s1), Hout2. f_equal.
  apply in_sync_unique; try assumption; [congruence | lia].
Qed.

Lemma undo_times_redo_times_roundtrip_witness :
  in_sync (SessionState "c" ["a"; "b"; "c"] 2)
  /\ (undo_times 2 ;; redo_times 2) (SessionState "c" ["a"; "b"; "c"] 2)
     = (Done tt, SessionState "c" ["a"; "b"; "c"] 2).
Proof.
  split; [reflexivity|].
  apply (undo_times_redo_times_roundtrip 2 (SessionState "c" ["a"; "b"; "c"] 2)).
  - reflexivity.
  - cbn. lia.
Defined.

(** X6: [n] presses of "Redo" followed by [n] presses of "Undo" bring back
    the state they started from, when the buffer is the snapshot under the
    pointer and there are [n] snapshots above it. *)
Theorem redo_times_undo_times_roundtrip n s :
  in_sync s -> 0 <= current_index s ->
  current_index s + Z.of_nat n <= PyList.len (history s) - 1 ->
  (redo_times n ;; undo_times n) s = (Done tt, s).
Proof.
  intros Hsync Hpos Hn.
  destruct (redo_times_in_sync n s Hsync Hpos Hn) as (Hout1 & Hh1 & Hi1 & Hs1).
  set (s1 := state_after (redo_times n) s) in *.
  destruct (undo_times_in_sync n s1 Hs1) as (Hout2 & Hh2 & Hi2 & Hs2); [lia|].
  unfold bind. rewrite (run_pair (redo_times n) s), Hout1. fold s1.
  rewrite (run_pair (undo_times n) s1), Hout2. f_equal.
  apply in_sync_unique; try assumption; [congruence | lia].
Qed.

Lemma redo_times_undo_times_roundtrip_witness :
  in_sync (SessionState "a" ["a"; "b"; "c"] 0)
  /\ (redo_times 2 ;; undo_times 2) (SessionState "a" ["a"; "b"; "c"] 0)
     = (Done tt, SessionState "a" ["a"; "b"; "c"] 0).
Proof.
  split; [reflexivity|].
  apply (redo_times_undo_times_roundtrip 2 (SessionState "a" ["a"; "b"; "c"] 0)).
  - reflexivity.
  - cbn. lia.
  - cbn. lia.
Defined.

(** What the sidebar does, by the pressed button. *)
Lemma sidebar_cases r s :
  state_after (sidebar r) s =
    match clicked r with
    | Some StartDictation => state_after (start_dictation (heard r)) s
    | Some ClearText => initial_state
    | Some Undo => state_after undo s
    | Some Redo => state_after redo s
    | Some LoadFromFile => state_after (load_from_file (file r)) s
    | _ => s
    end.
Proof.
  destruct r as [[[]|] said contents area];
    unfold sidebar, st_button, state_after, bind, when;
    cbn -[start_dictation undo redo]; try reflexivity.
  - now destruct (start_dictation said s) as [[[]|e] s'].
  - now destruct (undo s) as [[[]|e] s'].
  - now destruct (redo s) as [[[]|e] s'].
Qed.

(** What holds after every commit holds at the end of every run that
    commits. *)
Lemma script_run_commits_gen (P : session_state -> Prop) r s :
  history_invariant s -> commits r s = true ->
  (forall t s0,
      history_invariant s0 ->
      P (state_after save_to_history
           (SessionState t (history s0) (current_index s0)))) ->
  P (state_after (script_run r) s).
Proof.
  intros Hs Hcommit HP. rewrite script_run_state by assumption.
  destruct (keeps_sidebar r s Hs) as [_ Hinv].
  unfold commits in Hcommit.
  remember (state_after (sidebar r) s) as s1 eqn:Hs1.
  unfold state_after at 1. rewrite text_area_changed_eq.
  destruct (text s1 =? text_area r)%string; [|now apply HP].
  rewrite orb_false_r in Hcommit. apply andb_prop in Hcommit as [Hb Hres].
  cbn [snd]. rewrite Hs1, (sidebar_start_dictation r s Hb).
  unfold state_after at 1. rewrite start_dictation_eq, Hres. now apply HP.
Qed.

Lemma commit_text_last t s :
  history_invariant s ->
  let s' := state_after save_to_history
              (SessionState t (history s) (current_index s)) in
  current_index s' = PyList.len (history s') - 1.
Proof.
  intros Hs. apply history_invariant_bounds in Hs. cbv zeta.
  unfold state_after. rewrite save_to_history_firstn by (cbn; lia).
  cbn [snd history current_index text].
  rewrite len_app, len_firstn by lia. unfold PyList.len. simpl. lia.
Qed.

(** X7: at the end of a run that committed a snapshot the pointer is on the
    last snapshot, so "Redo" does nothing: whatever was undone before the
    commit cannot be redone. *)
Theorem redo_disabled_after_commit r s :
  history_invariant s -> commits r s = true ->
  let s' := state_after (script_run r) s in
  current_index s' = PyList.len (history s') - 1
  /\ redo s' = (Done tt, s').
Proof.
  intros Hs Hcommit s'.
  assert (current_index s' = PyList.len (history s') - 1) as Hlast.
  { unfold s'.
    apply (script_run_commits_gen
             (fun x => current_index x = PyList.len (history x) - 1));
      try assumption.
    intros t s0 Hs0. now apply commit_text_last. }
  split; [exact Hlast|]. rewrite redo_eq.
  replace (current_index s' <? PyList.len (history s') - 1) with false
    by (symmetry; apply Z.ltb_ge; lia).
  reflexivity.
Qed.

Lemma redo_disabled_after_commit_witness :
  let s := SessionState "a" ["a"; "b"; "c"] 0 in
  history_invariant s
  /\ commits (typed "x") s = true
  /\ state_after (script_run (typed "x")) s = SessionState "x" ["a"; "x"] 1
  /\ redo (state_after (script_run (typed "x")) s)
     = (Done tt, state_after (script_run (typed "x")) s).
Proof.
  intros s.
  assert (history_invariant s) as Hs
      by (apply history_invariant_iff; right; cbn; lia).
  split; [exact Hs|]. split; [reflexivity|]. split; [reflexivity|].
  exact (proj2 (redo_disabled_after_commit (typed "x") s Hs eq_refl)).
Defined.

Lemma undo_times_floor n s :
  current_index s <= 0 -> undo_times n s = (Done tt, s).
Proof.
  intros Hi. induction n as [|n IH]; [reflexivity|].
  cbn [undo_times]. unfold bind. rewrite undo_eq.
  replace (0 <? current_index s) with false
    by (symmetry; apply Z.ltb_ge; lia).
  exact IH.
Qed.

(** X8: the first edit of a new or cleared session cannot be undone: it
    leaves one snapshot with the pointer on it, and no number of presses of
    "Undo" brings back the buffer the session had before. *)
Theorem first_edit_cannot_be_undone s t n :
  history s = [] -> current_index s = -1 -> t <> text s ->
  let s1 := state_after (text_area_changed t) s in
  s1 = SessionState t [t] 0
  /\ undo_times n s1 = (Done tt, s1).
Proof.
  intros Hh Hi Ht s1.
  assert (s1 = SessionState t [t] 0) as ->.
  { unfold s1, state_after. rewrite text_area_changed_spec by lia.
    unfold applyEdit_spec.
    destruct (t =? text s)%string eqn:Heq;
      [apply String.eqb_eq in Heq; contradiction|].
    cbn [snd]. now rewrite Hh, Hi. }
  split; [reflexivity|]. apply undo_times_floor. cbn. lia.
Qed.

Lemma first_edit_cannot_be_undone_witness :
  state_after (text_area_changed "hello") initial_state
  = SessionState "hello" ["hello"] 0
  /\ undo_times 3 (state_after (text_area_changed "hello") initial_state)
     = (Done tt, state_after (text_area_changed "hello") initial_state).
Proof.
  apply (first_edit_cannot_be_undone initial_state "hello" 3);
    [reflexivity | reflexivity | discriminate].
Defined.





Lemma reachable_without_load_invariant s :
  reachable_without_load s -> history_invariant s.
Proof.
  induction 1 as [|s r _ IH _].
  - exact initial_state_invariant.
  - now apply keeps_script_run.
Qed.

(** The sidebar of a run that loads no file leaves a state that is the
    initial one or in sync, when it started from such a state. *)
Lemma sidebar_without_load r s :
  history_invariant s -> loads r = false ->
  s = initial_state \/ in_sync s ->
  state_after (sidebar r) s = initial_state
  \/ in_sync (state_after (sidebar r) s).
Proof.
  intros Hs Hload Hq. pose proof (history_invariant_bounds s Hs) as Hb.
  rewrite sidebar_cases. unfold loads, st_button in Hload.
  destruct (clicked r) as [[]|]; try assumption.
  - unfold state_after. rewrite start_dictation_eq.
    destruct (truthy (recognize_speech_from_mic (heard r))); [|assumption].
    right. now apply commit_text.
  - now left.
  - unfold state_after. rewrite undo_eq.
    destruct (0 <? current_index s) eqn:Hpos; [|assumption].
    apply Z.ltb_lt in Hpos.
    destruct (undo_moves s) as (t & Hget & Hundo); [lia|].
    rewrite Hget. now right.
  - unfold state_after. rewrite redo_eq.
    destruct (current_index s <? PyList.len (history s) - 1) eqn:Hlt;
      [|assumption].
    apply Z.ltb_lt in Hlt.
    destruct (redo_moves s) as (t & Hget & Hredo); [lia|].
    rewrite Hget. now right.
  - cbn in Hload. destruct (file r); [discriminate | assumption].
Qed.

(** X10: in a session in which no file is loaded, the buffer is the
    snapshot under the pointer after every run, unless the session is in
    its initial (or cleared) state. *)
Theorem without_load_in_sync s :
  reachable_without_load s -> s = initial_state \/ in_sync s.
Proof.
  induction 1 as [|s r Hreach IH Hload]; [now left|].
  pose proof (reachable_without_load_invariant s Hreach) as Hs.
  rewrite script_run_state by assumption.
  destruct (keeps_sidebar r s Hs) as [_ Hinv].
  pose proof (sidebar_without_load r s Hs Hload IH) as Hq.
  remember (state_after (sidebar r) s) as s1 eqn:Hs1.
  unfold state_after. rewrite text_area_changed_eq.
  destruct (text s1 =? text_area r)%string; [exact Hq|].
  right. now apply commit_text.
Qed.

Lemma without_load_in_sync_witness :
  reachable_without_load
    (state_after (script_run (typed "b"))
       (state_after (script_run (typed "a")) initial_state))
  /\ in_sync
       (state_after (script_run (typed "b"))
          (state_after (script_run (typed "a")) initial_state)).
Proof.
  assert (reachable_without_load
            (state_after (script_run (typed "b"))
               (state_after (script_run (typed "a")) initial_state)))
    as Hreach
      by (repeat (apply without_load_rerun; [|reflexivity]);
          apply without_load_initial).
  split; [exact Hreach|].
  destruct (without_load_in_sync _ Hreach) as [Hinit|Hsync];
    [discriminate Hinit | exact Hsync].
Defined.

(** X11: "Start Dictation" never takes text away: the buffer before is a
    prefix of the buffer after, whatever was heard; and when nothing was
    recognised the session state stays as it is. *)
Theorem start_dictation_only_appends heard s :
  prefix (text s) (text (state_after (start_dictation heard) s)) = true
  /\ (recognize_speech_from_mic heard = EmptyString ->
      start_dictation heard s = (Done tt, s))
  /\ (heard = UnknownValueError \/ heard = RequestError ->
      start_dictation heard s = (Done tt, s)).
Proof.
  assert (recognize_speech_from_mic heard = EmptyString ->
          start_dictation heard s = (Done tt, s)) as Hnone
      by (intros Hempty; now rewrite start_dictation_eq, Hempty).
  split; [|split; [exact Hnone|]].
  - unfold state_after. rewrite start_dictation_eq.
    destruct (truthy (recognize_speech_from_mic heard)).
    + rewrite save_to_history_eq. cbn [snd text]. apply prefix_app.
    + cbn [snd]. rewrite <- (append_empty_r (text s)) at 2. apply prefix_app.
  - intros [-> | ->]; now apply Hnone.
Qed.

(** ** Saving to and loading from the file *)

Lemma contains_cr_cons c s :
  PyStr.contains carriage_return (String c s)
  = (c =? CR)%char || PyStr.contains carriage_return s.
Proof.
  cbn [PyStr.contains carriage_return prefix].
  destruct (ascii_dec CR c) as [<-|Hne].
  - now destruct s.
  - apply Ascii.eqb_neq in Hne. rewrite Ascii.eqb_sym in Hne. now rewrite Hne.
Qed.

(** What is read never holds a carriage return. *)
Lemma universal_newlines_no_cr data :
  PyStr.contains carriage_return (universal_newlines data) = false
  /\ forall c,
      PyStr.contains carriage_return (universal_newlines (String c data))
      = false.
Proof.
  induction data as [|a data [IH1 IH2]].
  - split; [reflexivity|]. intros c. cbn [universal_newlines].
    destruct (c =? CR)%char eqn:Hc; [reflexivity|].
    now rewrite contains_cr_cons, Hc.
  - split; [apply IH2|]. intros c.
    change (universal_newlines (String c (String a data)))
      with (if (c =? CR)%char
            then String LF (if (a =? LF)%char then universal_newlines data
                            else universal_newlines (String a data))
            else String c (universal_newlines (String a data))).
    destruct (c =? CR)%char eqn:Hc.
    + rewrite contains_cr_cons. cbn [orb].
      change ((LF =? CR)%char) with false. cbn [orb].
      destruct (a =? LF)%char; [exact IH1 | apply IH2].
    + rewrite contains_cr_cons, Hc. apply IH2.
Qed.

(** A text without carriage return is read back as it was written. *)
Lemma universal_newlines_write linesep text :
  is_linesep linesep ->
  PyStr.contains carriage_return text = false ->
  universal_newlines (write_newlines linesep text) = text.
Proof.
  intros Hsep Hcr.
  destruct Hsep as [-> | ->];
    unfold write_newlines, PyStr.replace, newline;
    cbn [carriage_return append];
    induction text as [|c text IH]; try reflexivity;
    rewrite contains_cr_cons in Hcr; apply orb_false_elim in Hcr as [Hc Hcr];
    specialize (IH Hcr);
    cbn [PyStr.replace_from prefix String.length Nat.sub];
    (destruct (ascii_dec LF c) as [<-|Hne];
     [ replace (prefix EmptyString text) with true by now destruct text
     | cbn [universal_newlines]; rewrite Hc; now rewrite IH ]).
  - cbn [append universal_newlines].
    change ((LF =? CR)%char) with false. cbv iota. now rewrite IH.
  - cbn [append].
    set (rest := PyStr.replace_from (String LF EmptyString)
                   (String CR (String LF EmptyString)) 0 text) in *.
    change (universal_newlines (String CR (String LF rest)))
      with (String LF (universal_newlines rest)).
    now rewrite IH.
Qed.

Lemma fs_write_same fs path data : fs_write fs path data path = Some data.
Proof. unfold fs_write. now rewrite String.eqb_refl. Qed.

(** X12: a text saved to a file and loaded from it comes back unchanged
    exactly when it holds no carriage return; this holds with the line
    separator of POSIX systems and with that of Windows. *)
Theorem save_then_load_text linesep text path fs :
  is_linesep linesep ->
  (load_text_from_file path (save_text_to_file linesep text path fs) = Done text
   <-> PyStr.contains carriage_return text = false).
Proof.
  intros Hsep. unfold load_text_from_file, save_text_to_file.
  rewrite fs_write_same. split.
  - intros [= Hread]. rewrite <- Hread. apply universal_newlines_no_cr.
  - intros Hcr. now rewrite universal_newlines_write.
Qed.

Lemma save_then_load_text_witness :
  is_linesep (carriage_return ++ newline)
  /\ load_text_from_file filename
       (save_text_to_file (carriage_return ++ newline)
          ("one" ++ newline ++ "two") filename (fun _ => None))
     = Done ("one" ++ newline ++ "two").
Proof.
  assert (is_linesep (carriage_return ++ newline)) as Hsep by now right.
  split; [exact Hsep|].
  apply (save_then_load_text _ ("one" ++ newline ++ "two") filename
           (fun _ => None) Hsep).
  reflexivity.
Defined.


Lemma script_run_load_missing r s :
  clicked r = Some LoadFromFile -> file r = None -> text_area r = text s ->
  script_run r s = (Done tt, s).
Proof.
  destruct r as [c h f ta]. cbn. intros -> -> ->.
  unfold script_run, sidebar, st_button, bind, when. cbn.
  now rewrite String.eqb_refl.
Qed.







(** X14: a missing file is no failure of "Load from File": reading it would
    raise, the button does not read it, the run finishes without raising
    and leaves the session and the disk as they were. *)
Theorem load_missing_file linesep w e :
  path_exists (disk w) filename = false ->
  pressed e = Some LoadFromFile ->
  area e = text (session w) ->
  (exists err,
      load_text_from_file filename (disk w) = Raised err
      /\ is_Exception err = true)
  /\ outcome
       (script_run (Rerun (pressed e) (said e) (file_on (disk w)) (area e)))
       (session w)
     = Done tt
  /\ app_run linesep e w = w.
Proof.
  intros Hmiss Hload Harea.
  assert (file_on (disk w) = None) as Hfile
      by (unfold file_on; now rewrite Hmiss).
  assert (script_run
            (Rerun (pressed e) (said e) (file_on (disk w)) (area e))
            (session w)
          = (Done tt, session w)) as Hrun
      by (apply script_run_load_missing; assumption).
  split; [|split].
  - unfold path_exists in Hmiss. unfold load_text_from_file.
    destruct (disk w filename); [discriminate|]. eexists. now split.
  - unfold outcome. now rewrite Hrun.
  - unfold app_run, state_after. rewrite Hrun. unfold st_button. cbn.
    rewrite Hload. now destruct w.
Qed.

Lemma load_missing_file_witness :
  let w := World (SessionState "draft" ["draft"] 0) (fun _ => None) in
  path_exists (disk w) filename = false
  /\ app_run newline (Event (Some LoadFromFile) UnknownValueError "draft") w
     = w.
Proof.
  intros w. split; [reflexivity|].
  refine (proj2 (proj2 (load_missing_file newline w
            (Event (Some LoadFromFile) UnknownValueError "draft") _ _ _)));
    reflexivity.
Defined.

(** ** The tools beside and below the editor *)

Lemma rstrip_empty_iff s :
  PyStr.rstrip s = EmptyString <-> all_space s = true.
Proof.
  induction s as [|c s IH]; [now split|].
  cbn [PyStr.rstrip all_space]. destruct (PyStr.rstrip s) as [|b r].
  - destruct (PyStr.isspace c); cbn [andb].
    + split; [intros _; now apply IH | reflexivity].
    + split; discriminate.
  - split; [discriminate|]. intros H. apply andb_prop in H as [_ H].
    apply IH in H. discriminate H.
Qed.

Lemma all_space_lstrip s : all_space (PyStr.lstrip s) = all_space s.
Proof.
  induction s as [|c s IH]; [reflexivity|].
  cbn [PyStr.lstrip all_space]. destruct (PyStr.isspace c) eqn:Hc; [exact IH|].
  cbn [all_space]. now rewrite Hc.
Qed.

(** The buttons' test [text.strip()] fails exactly on the texts made of
    white space only. *)
Lemma truthy_strip s : truthy (PyStr.strip s) = negb (all_space s).
Proof.
  unfold truthy, PyStr.strip. f_equal. rewrite <- all_space_lstrip.
  destruct (all_space (PyStr.lstrip s)) eqn:Hall.
  - apply rstrip_empty_iff in Hall. now rewrite Hall.
  - apply String.eqb_neq. intros Hr. apply rstrip_empty_iff in Hr. congruence.
Qed.

(** X15: "Translate" and "Show Preview" take the buffer for empty exactly
    when all its characters are white space: then, and only then, they
    show their warning and nothing else, and the translator is not asked. *)
Theorem blank_buffer_warning
  (translator_translate : string -> string -> result Translated.t)
  (text target_language : string) :
  (translate_button translator_translate text target_language
   = Done [st_notice (st_warning "Text is empty.")]
   <-> all_space text = true)
  /\ (show_preview text = [st_notice (st_warning "Nothing to preview.")]
      <-> all_space text = true).
Proof.
  unfold translate_button, show_preview, translate_text.
  rewrite truthy_strip. destruct (all_space text); cbn [negb].
  - now split.
  - split; (split; [|discriminate]).
    + destruct (translator_translate text target_language) as [tr|e];
        [discriminate|].
      destruct (is_Exception e); discriminate.
    + discriminate.
Qed.

(** X16: "Translate" lets no exception through: with a buffer that is not
    blank and a translator that raises an exception it shows the error and
    the buffer itself; all it can raise is what is no instance of
    [Exception]. *)
Theorem translate_button_fail_soft
  (translator_translate : string -> string -> result Translated.t)
  (text target_language : string) :
  (forall e,
      translate_button translator_translate text target_language = Raised e ->
      is_Exception e = false)
  /\ (forall e,
         all_space text = false ->
         translator_translate text target_language = Raised e ->
         is_Exception e = true ->
         translate_button translator_translate text target_language
         = Done [st_notice (st_error ("Translation failed: " ++ exception_str e));
                 st_text_area text]).
Proof.
  unfold translate_button, translate_text. rewrite truthy_strip. split.
  - intros e. destruct (all_space text); cbn [negb]; [discriminate|].
    destruct (translator_translate text target_language) as [tr|e'];
      [discriminate|].
    destruct (is_Exception e') eqn:He'; [discriminate|].
    now intros [= <-].
  - intros e Hblank Hraise Hexc. now rewrite Hblank, Hraise, Hexc.
Qed.

Lemma contains_of_prefix sub s : prefix sub s = true -> PyStr.contains sub s = true.
Proof.
  intros Hp. destruct s as [|c s]; [exact Hp|].
  cbn [PyStr.contains]. now rewrite Hp.
Qed.

Lemma contains_app_r sub a s :
  PyStr.contains sub s = true -> PyStr.contains sub (a ++ s) = true.
Proof.
  intros Hs. induction a as [|c a IH]; [exact Hs|].
  cbn [append PyStr.contains]. rewrite IH. apply orb_true_r.
Qed.

(** X17: with a loaded model [pos_tagging] gives one line per token, and
    every line holds the arrow " -> "; the line it gives without a model
    holds no arrow, so it cannot be taken for a tag. *)
Theorem pos_tagging_lines
  (nlp : option (string -> list Token.t)) (text : string) :
  (nlp = None -> pos_tagging nlp text = ["spaCy model not loaded."])
  /\ (forall model,
         nlp = Some model ->
         List.length (pos_tagging nlp text) = List.length (model text)
         /\ forall line,
             In line (pos_tagging nlp text) ->
             PyStr.contains " -> " line = true)
  /\ PyStr.contains " -> " "spaCy model not loaded." = false.
Proof.
  split; [now intros ->|]. split; [|reflexivity].
  intros model ->. unfold pos_tagging. split; [apply List.length_map|].
  intros line Hin. apply in_map_iff in Hin as (token & <- & _).
  apply contains_app_r, contains_of_prefix, prefix_app.
Qed.
